(** * swim_delete_images.py: filter, delete and poll SWIM images

    A shallow embedding of [src/swim_delete_images.py] and the properties
    of its filter engine, deletion protocol, task poller and orchestrator.

    Conventions of the embedding:
    - JSON values returned by the controller are the inductive [json];
      a JSON object (a Python [dict]) is a [gmap string json].
    - Python exceptions are values of [exn]; code that may raise returns a
      [result].  Code that talks to the controller runs in the monad [M],
      which threads a [world]: the scripted controller, the wall clock and
      the trace of calls and log lines issued so far.
    - Functions of the Python runtime whose definition is not part of the
      program ([str.lower], [re], [datetime] parsing, [str()] of a
      non-string value) are the fields of the class [PyRuntime]; every
      theorem holds for every runtime. *)

From Stdlib Require Import Ascii String QArith Qround Lqa.
From stdpp Require Import base strings gmap list pretty.

Set Default Proof Using "Type".
Local Set Warnings "-register-all".
Local Open Scope Z_scope.

(** ** Values *)

(** A Python [float]: not-a-number, an infinity, or the finite value
    [m * 2^e]. *)
Inductive pyfloat :=
| Fnan
| Finf (neg : bool)
| Ffin (m e : Z).

Inductive json :=
| JNull
| JBool (b : bool)
| JInt (n : Z)
| JFloat (f : pyfloat)
| JStr (s : string)
| JArr (l : list json)
| JObj (o : gmap string json).

(** A raw inventory entry: a JSON object. *)
Abbreviation record := (gmap string json).

(** Naive UTC instants and durations, in microseconds. *)
Definition datetime := Z.
Definition timedelta := Z.

Inductive exn :=
| AttributeError
| JSONDecodeError
| ConnectionError
| ReError
| OverflowError
| ValueError
| EOFError.

(** The outcome of running a piece of Python: a value, a raised exception,
    or (for the polling loop only) exhaustion of the fuel of the model. *)
Inductive result (A : Type) :=
| Ret (a : A)
| Raise (e : exn)
| OutOfFuel.
Arguments Ret {A} a.
Arguments Raise {A} e.
Arguments OutOfFuel {A}.

Definition result_bind {A B} (f : A → result B) (r : result A) : result B :=
  match r with
  | Ret a => f a
  | Raise e => Raise e
  | OutOfFuel => OutOfFuel
  end.

#[export] Instance result_mret : MRet result := @Ret.
#[export] Instance result_mbind : MBind result := @result_bind.

(** ** The Python runtime *)

Class PyRuntime := {
  (** [str.lower] *)
  lower : string → string;
  (** [str.strip] *)
  strip : string → string;
  (** [str(v)] for a value [v] that is not a string *)
  repr : json → string;
  (** [str(tried)] for the list of (path, status) pairs *)
  repr_tried : list (string * Z) → string;
  (** [int(s)] for a string; [None] when it raises *)
  int_of_str : string → option Z;
  (** compiled patterns of [re]; [re_compile] is [None] on [re.error] *)
  regex : Type;
  re_compile : string → option regex;
  re_search : regex → string → bool;
  (** [datetime.fromisoformat(s).replace(tzinfo=None)]; [None] when it raises *)
  fromisoformat : string → option datetime;
  (** [datetime.utcfromtimestamp(t)]; [None] when it raises *)
  utcfromtimestamp : Q → option datetime;
}.

Section Program.
Context `{RT : PyRuntime}.

(** *** Python primitives with a fixed meaning *)

(** Truth value of a JSON value, as tested by [if], [or], [and], [bool]. *)
Definition float_truthy (f : pyfloat) : bool :=
  match f with
  | Ffin m _ => negb (m =? 0)
  | _ => true
  end.

Definition truthy (v : json) : bool :=
  match v with
  | JNull => false
  | JBool b => b
  | JInt n => negb (n =? 0)
  | JFloat f => float_truthy f
  | JStr s => negb (String.eqb s "")
  | JArr l => negb (bool_decide (l = []))
  | JObj o => negb (bool_decide (o = ∅))
  end.

(** [a or b] *)
Definition py_or (a b : json) : json := if truthy a then a else b.

(** [d.get(k)] *)
Definition get (d : record) (k : string) : json := default JNull (d !! k).

(** [str(v)], also the rendering of [{v}] in an f-string *)
Definition str (v : json) : string :=
  match v with
  | JStr s => s
  | _ => repr v
  end.

(** [str(n)] for an [int] *)
Definition str_int (n : Z) : string := pretty n.

(** [needle in hay] for strings *)
Fixpoint str_in (needle hay : string) : bool :=
  String.prefix needle hay ||
  match hay with
  | EmptyString => false
  | String _ rest => str_in needle rest
  end.

(** [s.replace("Z", "+00:00")] *)
Fixpoint replace_Z (s : string) : string :=
  match s with
  | EmptyString => EmptyString
  | String c rest =>
      if Ascii.eqb c "Z"%char then "+00:00" +:+ replace_Z rest
      else String c (replace_Z rest)
  end.

(** [v.lower()] where [v] came out of an [or] chain: only a [str] has the
    method. *)
Definition lower_method (v : json) : result string :=
  match v with
  | JStr s => Ret (lower s)
  | _ => Raise AttributeError
  end.

(** [int(f)] for a float: truncation toward zero; raises on nan and inf. *)
Definition int_of_float (f : pyfloat) : option Z :=
  match f with
  | Ffin m e => Some (if 0 <=? e then m * 2 ^ e else Z.quot m (2 ^ (- e)))
  | _ => None
  end.

(** [int(v)]; [None] when it raises. *)
Definition py_int (v : json) : option Z :=
  match v with
  | JBool b => Some (if b then 1 else 0)
  | JInt n => Some n
  | JFloat f => int_of_float f
  | JStr s => int_of_str s
  | _ => None
  end.

(** [isinstance(v, (int, float))]; a [bool] is an [int]. *)
Definition is_number (v : json) : bool :=
  match v with
  | JBool _ | JInt _ | JFloat _ => true
  | _ => false
  end.

(** [dt.timedelta(days=n)] *)
Definition timedelta_days (n : Z) : result timedelta :=
  if Z.abs n <=? 999999999 then Ret (n * 86400000000) else Raise OverflowError.

(** An optional string argument is used only when it is truthy. *)
Definition given (o : option string) : option string :=
  match o with
  | Some s => if String.eqb s "" then None else Some s
  | None => None
  end.

(** ** Helpers *)

Definition parse_bool (s : option string) : option bool :=
  match s with
  | None => None
  | Some s =>
      let s := lower (strip s) in
      if bool_decide (s ∈ ["true"; "t"; "yes"; "y"; "1"]) then Some true
      else if bool_decide (s ∈ ["false"; "f"; "no"; "n"; "0"]) then Some false
      else None
  end.

(** ** Filtering *)

(** The [argparse.Namespace] handed to [compile_filters]. *)
Record Namespace := {
  family : option string;
  name_contains : option string;
  name_regex : option string;
  version : option string;
  version_regex : option string;
  type : option string;
  golden : option bool;
  older_than_days : option Z;
  unused_only : bool;
}.

(** The variables captured by the closure [_match]. *)
Record filters := {
  args : Namespace;
  v_regex : option regex;
  name_regex_c : option regex;
  older_than : option timedelta;
  now_utc : datetime;
}.

(** [re.compile(p) if p else None] *)
Definition compile_opt (p : option string) : result (option regex) :=
  match given p with
  | None => Ret None
  | Some p =>
      match re_compile p with
      | Some r => Ret (Some r)
      | None => Raise ReError
      end
  end.

(** [compile_filters(args)], up to the definition of [_match]; [utcnow] is
    the reading of [dt.datetime.utcnow()]. *)
Definition compile_filters (a : Namespace) (utcnow : datetime) : result filters :=
  vr ← compile_opt (version_regex a);
  nr ← compile_opt (name_regex a);
  ot ← match older_than_days a with
       | Some n => if n =? 0 then Ret None
                   else t ← timedelta_days n; Ret (Some t)
       | None => Ret None
       end;
  Ret {| args := a; v_regex := vr; name_regex_c := nr;
         older_than := ot; now_utc := utcnow |}.

(** Lines 161-171: the creation time of an entry, [None] when it is absent
    or cannot be parsed. *)
Definition created_of (img : record) : option datetime :=
  let created := py_or (get img "createdTime")
                   (py_or (get img "importedDate") (get img "lastUpdateTime")) in
  if truthy created then
    if is_number created then
      n ← py_int created;
      utcfromtimestamp (if 10 ^ 10 <? n then inject_Z n / 1000 else inject_Z n)%Q
    else fromisoformat (replace_Z (str created))
  else None.

(** Lines 189-197: whether the [unused_only] check rejects the entry. *)
Definition in_use (img : record) : bool :=
  let used := py_or (get img "usedDevicesCount")
                (py_or (get img "usingDeviceCount")
                   (py_or (get img "deviceCount") (JInt 0))) in
  match py_int used with
  | Some n => 0 <? n
  | None => false
  end.

Definition is_golden_of (img : record) : bool :=
  truthy (py_or (get img "isTaggedGolden")
            (py_or (get img "isGolden") (get img "golden"))).

(** The closure [_match] returned by [compile_filters]. *)
Definition _match (c : filters) (img : record) : result bool :=
  img_family ← lower_method
    (py_or (get img "family") (py_or (get img "familyName") (JStr "")));
  img_name ← lower_method
    (py_or (get img "name") (py_or (get img "imageName") (JStr "")));
  img_version ← lower_method
    (py_or (get img "version") (py_or (get img "softwareVersion") (JStr "")));
  image_type ← lower_method
    (py_or (get img "imageType") (py_or (get img "type") (JStr "")));
  let is_golden := is_golden_of img in
  let created_dt := created_of img in
  if match given (c.(args).(family)) with
     | Some f => negb (str_in (lower f) img_family) | None => false end
  then Ret false
  else if match given (c.(args).(name_contains)) with
          | Some n => negb (str_in (lower n) img_name) | None => false end
  then Ret false
  else if match c.(name_regex_c) with
          | Some r => negb (re_search r img_name) | None => false end
  then Ret false
  else if match given (c.(args).(version)) with
          | Some v => negb (String.eqb (lower v) img_version) | None => false end
  then Ret false
  else if match c.(v_regex) with
          | Some r => negb (re_search r img_version) | None => false end
  then Ret false
  else if match given (c.(args).(type)) with
          | Some t => negb (str_in (lower t) image_type) | None => false end
  then Ret false
  else if match c.(args).(golden) with
          | Some g => negb (eqb is_golden g) | None => false end
  then Ret false
  else if match c.(older_than), created_dt with
          | Some ot, Some cd => (* a non-zero timedelta, a datetime *)
              negb (ot =? 0) && (c.(now_utc) - cd <? ot)
          | _, _ => false end
  then Ret false
  else if c.(args).(unused_only) && in_use img
  then Ret false
  else Ret true.

(** ** The controller, the clock and the console *)

Inductive method := GET | DELETE.

(** The method of [CatalystCenter] that issues a request. *)
Inductive api := ApiTask | ApiRemoveGolden | ApiDeleteImage.

(** A [requests.Response]: [json_body] is the value of [r.json()], [None]
    when the body is not JSON and [r.json()] raises. *)
Record response := {
  status_code : Z;
  text : string;
  json_body : option json;
}.

(** What [session.get] / [session.delete] does: return a response or raise. *)
Inductive reply :=
| Responds (r : response)
| Fails (e : exn).

(** A row of the candidate table built by [img_row]. *)
Record row := {
  imageUuid : json;
  row_name : json;
  row_version : json;
  row_family : json;
  row_type : json;
  row_golden : bool;
  usedCount : json;
}.

(** An entry of the [failures] list: [{"row": r, "error": msg}]. *)
Definition failure : Type := row * string.

(** What [print(json.dumps(...))] writes. *)
Inductive printed :=
| PrDryRun (matches : list row)
| PrResult (deleted : list row) (failed : list failure)
| PrFailures (failed : list failure).

Inductive event :=
| EvRequest (m : method) (from : api) (url : string)
| EvSleep (d : Q)
| EvLog (msg : string)
| EvJson (p : printed).

(** The world the program runs in.  [server n] is what the [n]-th request
    of the run meets and [latency n] the time it takes; [sent] counts the
    requests issued, [clock] is [time.time()] in seconds, [stdin] the lines
    still to be read, and [trace] what the program did, oldest first. *)
Record world := {
  server : nat → reply;
  latency : nat → Q;
  sent : nat;
  clock : Q;
  stdin : list string;
  trace : list event;
}.

Definition M (A : Type) : Type := world → result A * world.

Definition M_ret {A} (a : A) : M A := λ w, (Ret a, w).

Definition M_bind {A B} (f : A → M B) (m : M A) : M B := λ w,
  match m w with
  | (Ret a, w') => f a w'
  | (Raise e, w') => (Raise e, w')
  | (OutOfFuel, w') => (OutOfFuel, w')
  end.

#[export] Instance M_mret : MRet M := @M_ret.
#[export] Instance M_mbind : MBind M := @M_bind.

(** A pure computation, run without touching the world. *)
Definition lift {A} (r : result A) : M A := λ w, (r, w).

Definition emit (e : event) (w : world) : world :=
  {| server := server w; latency := latency w; sent := sent w;
     clock := clock w; stdin := stdin w; trace := trace w ++ [e] |}.

(** [self.session.get(url)] and [self.session.delete(url)] *)
Definition request (m : method) (from : api) (url : string) : M response := λ w,
  let w' := {| server := server w; latency := latency w; sent := S (sent w);
               clock := (clock w + latency w (sent w))%Q; stdin := stdin w;
               trace := trace w ++ [EvRequest m from url] |} in
  match server w (sent w) with
  | Responds r => (Ret r, w')
  | Fails e => (Raise e, w')
  end.

(** [time.time()] *)
Definition time_time : M Q := λ w, (Ret (clock w), w).

Definition Qltb (x y : Q) : bool := negb (Qle_bool y x).

(** [time.sleep(d)] *)
Definition time_sleep (d : Q) : M unit := λ w,
  if Qltb d 0 then (Raise ValueError, w)
  else (Ret tt,
        {| server := server w; latency := latency w; sent := sent w;
           clock := (clock w + d)%Q; stdin := stdin w;
           trace := trace w ++ [EvSleep d] |}).

(** [dt.datetime.utcnow()] *)
Definition utcnow : M datetime := λ w, (Ret (Qfloor (clock w * 1000000)), w).

Definition log (msg : string) : M unit := λ w, (Ret tt, emit (EvLog msg) w).

Definition print_json (p : printed) : M unit := λ w, (Ret tt, emit (EvJson p) w).

(** [r.json()] *)
Definition r_json (r : response) : result json :=
  match json_body r with
  | Some v => Ret v
  | None => Raise JSONDecodeError
  end.

(** [v.get(k)] on a decoded value: only a [dict] has the method. *)
Definition get_method (v : json) (k : string) : result json :=
  match v with
  | JObj o => Ret (get o k)
  | _ => Raise AttributeError
  end.

(** ** API wrapper *)

(** The result of [get_task]: [{"error": e, "raw": raw}] or
    [{"ok": True, "data": data}]. *)
Inductive task_result :=
| TaskError (error : json) (raw : json)
| TaskOk (data : json).

Definition completion_keywords : list string :=
  ["completed"; "success"; "done"; "deletion"].

(** Lines 86-89: the decoded task together with its [progress], [isError]
    and [failureReason]. *)
Definition task_fields (r : response) : result (json * json * json * json) :=
  body ← r_json r;
  resp ← get_method body "response";
  let data := py_or resp body in
  progress ← get_method (py_or data (JObj ∅)) "progress";
  is_error ← get_method (py_or data (JObj ∅)) "isError";
  failure ← get_method (py_or data (JObj ∅)) "failureReason";
  Ret (data, progress, is_error, failure).

(** The [while True] loop of [get_task]; each unit of fuel pays for one
    iteration. *)
Fixpoint get_task_loop (fuel : nat) (url : string) (start : Q)
    (timeout : Z) (poll_interval : Q) : M task_result :=
  match fuel with
  | O => λ w, (OutOfFuel, w)
  | S fuel =>
      r ← request GET ApiTask url;
      if negb (status_code r =? 200) then
        mret (TaskError (JStr ("task query failed " +:+ str_int (status_code r)))
                        (JStr (text r)))
      else
        '(data, progress, is_error, failure) ← lift (task_fields r);
        if truthy is_error || truthy failure then
          mret (TaskError (py_or failure (JStr "task reported error")) data)
        else if truthy progress &&
                existsb (λ k, str_in k (lower (str progress))) completion_keywords
        then mret (TaskOk data)
        else
          t ← time_time;
          if Qltb (inject_Z timeout) (t - start) then
            mret (TaskError (JStr "task timeout") data)
          else
            _ ← time_sleep poll_interval;
            get_task_loop fuel url start timeout poll_interval
  end.

(** [CatalystCenter.get_task]; [base] is [self.base]. *)
Definition get_task (fuel : nat) (base : string) (task_id : json)
    (timeout : Z) (poll_interval : Q) : M task_result :=
  let url := base +:+ "/dna/intent/api/v1/task/" +:+ str task_id in
  start ← time_time;
  get_task_loop fuel url start timeout poll_interval.

(** The defaults of [get_task]. *)
Definition default_timeout : Z := 300.
Definition default_poll_interval : Q := 5 # 2.

(** Lines 114-115 and 137-138: the task id in the body of an accepted
    request. *)
Definition task_id_of (r : response) : result json :=
  body ← r_json r;
  resp ← get_method body "response";
  get_method (py_or resp (JObj ∅)) "taskId".

Definition accepted (status : Z) : bool := (status =? 200) || (status =? 202).

(** [CatalystCenter.remove_golden]; [None] is [JNull]. *)
Definition remove_golden (base site_id family_id role : string) (image_id : json)
    : M json :=
  let url := base +:+ "/dna/intent/api/v1/image/importation/golden/site/" +:+ site_id
             +:+ "/family/" +:+ family_id +:+ "/role/" +:+ role
             +:+ "/image/" +:+ str image_id in
  r ← request DELETE ApiRemoveGolden url;
  if accepted (status_code r) then lift (task_id_of r)
  else if status_code r =? 204 then mret JNull
  else
    _ ← log ("Warning: remove_golden failed " +:+ str_int (status_code r)
             +:+ ": " +:+ text r);
    mret JNull.

(** The result of [delete_image]: [{"ok": True, "taskId": t, "path": p}] or
    [{"ok": False, "tried": tried, "last_text": text}]. *)
Inductive delete_result :=
| DeleteOk (taskId : json) (path : string)
| DeleteFailed (tried : list (string * Z)) (last_text : string).

(** The candidate paths of [delete_image], in the order they are tried. *)
Definition delete_paths (image_id : json) : list string :=
  [ "/dna/intent/api/v1/image/importation/" +:+ str image_id;
    "/dna/intent/api/v1/image/" +:+ str image_id ].

(** The [for path in [...]] loop of [delete_image] over the paths still to
    try; [tried] and [last_text] ([r.text] of the latest response) are the
    state it carries. *)
Fixpoint delete_image_loop (base : string) (paths : list string)
    (tried : list (string * Z)) (last_text : string) : M delete_result :=
  match paths with
  | [] => mret (DeleteFailed tried last_text)
  | path :: paths =>
      r ← request DELETE ApiDeleteImage (base +:+ path);
      let tried := tried ++ [(path, status_code r)] in
      if accepted (status_code r) then
        task_id ← lift (task_id_of r);
        mret (DeleteOk task_id path)
      else if status_code r =? 204 then mret (DeleteOk JNull path)
      else delete_image_loop base paths tried (text r)
  end.

(** [CatalystCenter.delete_image] *)
Definition delete_image (base : string) (image_id : json) : M delete_result :=
  delete_image_loop base (delete_paths image_id) [] "".

(** ** CLI *)

(** The choices of [--golden]. *)
Inductive golden_choice := GoldenTrue | GoldenFalse | GoldenAny.

(** The [argparse.Namespace] of the command line, without the
    authentication group. *)
Record Args := {
  arg_family : option string;
  arg_type : option string;
  arg_name_contains : option string;
  arg_name_regex : option string;
  arg_version : option string;
  arg_version_regex : option string;
  arg_golden : golden_choice;
  arg_older_than_days : option Z;
  arg_unused_only : bool;
  arg_limit : Z;
  arg_site_id : option string;
  arg_device_family_identifier : option string;
  arg_device_role : option string;
  arg_dry_run : bool;
  arg_yes : bool;
  arg_json : bool;
}.

Definition nl : string := String (ascii_of_nat 10) EmptyString.

Definition str_bool (b : bool) : string := if b then "True" else "False".

(** [input(prompt)] *)
Definition input (prompt : string) : M string := λ w,
  match stdin w with
  | [] => (Raise EOFError, emit (EvLog prompt) w)
  | line :: rest =>
      (Ret line,
       {| server := server w; latency := latency w; sent := sent w;
          clock := clock w; stdin := rest;
          trace := trace w ++ [EvLog prompt] |})
  end.

Definition confirm (prompt : string) : M bool := λ w,
  match input (prompt +:+ " [y/N]: ") w with
  | (Ret ans, w') => (Ret (bool_decide (lower (strip ans) ∈ ["y"; "yes"])), w')
  | (Raise EOFError, w') => (Ret false, w')
  | (Raise e, w') => (Raise e, w')
  | (OutOfFuel, w') => (OutOfFuel, w')
  end.

(** [selected = [img for img in images if match_fn(img)]] *)
Fixpoint select (c : filters) (images : list record) : result (list record) :=
  match images with
  | [] => Ret []
  | img :: images =>
      keep ← _match c img;
      rest ← select c images;
      Ret (if keep : bool then img :: rest else rest)
  end.

Definition img_row (img : record) : row := {|
  imageUuid := py_or (get img "imageUuid") (py_or (get img "id") (get img "imageId"));
  row_name := py_or (get img "name") (get img "imageName");
  row_version := py_or (get img "version") (get img "softwareVersion");
  row_family := py_or (get img "family") (get img "familyName");
  row_type := py_or (get img "imageType") (get img "type");
  row_golden := is_golden_of img;
  usedCount := py_or (get img "usedDevicesCount")
                 (py_or (get img "usingDeviceCount")
                    (py_or (get img "deviceCount") (JInt 0)));
|}.

Definition row_line (r : row) : string :=
  "- " +:+ str (imageUuid r) +:+ "  " +:+ str (row_name r)
  +:+ "  v" +:+ str (row_version r) +:+ "  fam=" +:+ str (row_family r)
  +:+ "  type=" +:+ str (row_type r) +:+ "  golden=" +:+ str_bool (row_golden r)
  +:+ "  used=" +:+ str (usedCount r).

(** What the body of the deletion loop appends: a row to [deleted] or an
    entry to [failures]. *)
Inductive outcome :=
| Deleted (r : row)
| Failed (r : row) (error : string).

(** Lines 326-334: the optional removal of the golden tag.  The result is
    the [error] of the failure entry when the item is abandoned
    ([continue]), [None] when the body goes on to the deletion. *)
Definition remove_golden_first (cli : Args) (base : string) (fuel : nat)
    (r : row) : M (option string) :=
  match row_golden r, given (arg_site_id cli),
        given (arg_device_family_identifier cli), given (arg_device_role cli) with
  | true, Some site_id, Some family_id, Some role =>
      _ ← log ("Removing golden tag for image " +:+ str (imageUuid r) +:+ " ...");
      task_id ← remove_golden base site_id family_id role (imageUuid r);
      if truthy task_id then
        tr ← get_task fuel base task_id default_timeout default_poll_interval;
        match tr with
        | TaskError e _ => mret (Some ("remove_golden failed: " +:+ str e))
        | TaskOk _ => mret None
        end
      else mret None
  | _, _, _, _ => mret None
  end.

(** Lines 336-348: the deletion proper. *)
Definition delete_and_wait (base : string) (fuel : nat) (r : row) : M outcome :=
  _ ← log ("Deleting image " +:+ str (imageUuid r) +:+ " (" +:+ str (row_name r)
           +:+ " v" +:+ str (row_version r) +:+ ") ...");
  res ← delete_image base (imageUuid r);
  match res with
  | DeleteOk task_id _ =>
      if truthy task_id then
        tr ← get_task fuel base task_id default_timeout default_poll_interval;
        match tr with
        | TaskError e _ => mret (Failed r ("task failed: " +:+ str e))
        | TaskOk _ =>
            _ ← log ("Deleted " +:+ str (imageUuid r));
            mret (Deleted r)
        end
      else
        _ ← log ("Deleted " +:+ str (imageUuid r));
        mret (Deleted r)
  | DeleteFailed tried last_text =>
      mret (Failed r ("delete failed (paths tried " +:+ repr_tried tried
                      +:+ "): " +:+ last_text))
  end.

(** The body of the loop [for r in table[:limit]]. *)
Definition delete_row (cli : Args) (base : string) (fuel : nat) (r : row)
    : M outcome :=
  if negb (truthy (imageUuid r)) then mret (Failed r "missing imageUuid")
  else
    abandoned ← remove_golden_first cli base fuel r;
    match abandoned with
    | Some error => mret (Failed r error)
    | None => delete_and_wait base fuel r
    end.

(** The loop [for r in table[:limit]] over the rows still to visit, with
    the lists [deleted] and [failures] it grows. *)
Fixpoint deletions (cli : Args) (base : string) (fuel : nat) (rows : list row)
    (deleted : list row) (failures : list failure)
    : M (list row * list failure) :=
  match rows with
  | [] => mret (deleted, failures)
  | r :: rows =>
      o ← delete_row cli base fuel r;
      match o with
      | Deleted r => deletions cli base fuel rows (deleted ++ [r]) failures
      | Failed r error => deletions cli base fuel rows deleted (failures ++ [(r, error)])
      end
  end.

(** [table[:limit]] with [limit] as computed on line 319. *)
Definition limited (cli : Args) (table : list row) : list row :=
  let limit := if negb (arg_limit cli =? 0) && (0 <? arg_limit cli)
               then arg_limit cli else Z.of_nat (length table) in
  take (Z.to_nat limit) table.

Definition filter_args (cli : Args) : Namespace := {|
  family := arg_family cli;
  name_contains := arg_name_contains cli;
  name_regex := arg_name_regex cli;
  version := arg_version cli;
  version_regex := arg_version_regex cli;
  type := arg_type cli;
  golden := match arg_golden cli with
            | GoldenTrue => Some true
            | GoldenFalse => Some false
            | GoldenAny => None
            end;
  older_than_days := arg_older_than_days cli;
  unused_only := arg_unused_only cli;
|}.

(** Lines 281-295: the candidate table. *)
Definition candidates (c : filters) (images : list record) : result (list row) :=
  selected ← select c images;
  Ret (map img_row selected).

(** [main], from the inventory [images] that [cc.list_images] returned on:
    argument parsing, the construction of [cc] (with [base = cc.base]) and
    the inventory request come before.  [main] prints its report; the
    embedding also returns it: [None] when nothing was attempted. *)
Definition main (cli : Args) (base : string) (fuel : nat) (images : list record)
    : M (option (list row * list failure)) :=
  now ← utcnow;
  match_fn ← lift (compile_filters (filter_args cli) now);
  table ← lift (candidates match_fn images);
  _ ← (if negb (arg_json cli) then
         _ ← log (nl +:+ "Candidates:");
         _ ← foldr (λ r (k : M unit), _ ← log (row_line r); k) (mret tt) table;
         log (nl +:+ "Total matches: " +:+ str_int (Z.of_nat (length table)))
       else mret tt);
  if arg_dry_run cli then
    _ ← (if arg_json cli then print_json (PrDryRun table)
         else log (nl +:+ "DRY RUN: no deletions performed."));
    mret None
  else if bool_decide (table = []) then
    _ ← log "Nothing to delete (no matches).";
    mret None
  else
    go ← (if arg_yes cli then mret true
          else confirm ("Proceed to delete up to "
                        +:+ str_int (Z.of_nat (length table)) +:+ " image(s)?"));
    if negb go then
      _ ← log "Aborted.";
      mret None
    else
      '(deleted, failures) ← deletions cli base fuel (limited cli table) [] [];
      _ ← (if arg_json cli then print_json (PrResult deleted failures)
           else
             _ ← log (nl +:+ "Done. Deleted: " +:+ str_int (Z.of_nat (length deleted))
                      +:+ ", Failed: " +:+ str_int (Z.of_nat (length failures)));
             if bool_decide (failures = []) then mret tt
             else print_json (PrFailures failures));
      mret (Some (deleted, failures)).

(** ** The filter as the specification words it

    §3 and §4.2 describe the matcher as a conjunction of independent
    predicates over a normalized descriptor.  [normalize], [predicates] and
    [match_conj] follow that wording; they are compared with [_match]
    below. *)

Record ImageRecord := {
  ir_family : string;
  ir_name : string;
  ir_version : string;
  ir_imageType : string;
  ir_isGolden : bool;
  ir_createdAt : option datetime;
  ir_inUse : bool;
}.

Definition normalize (img : record) : result ImageRecord :=
  f ← lower_method
    (py_or (get img "family") (py_or (get img "familyName") (JStr "")));
  n ← lower_method
    (py_or (get img "name") (py_or (get img "imageName") (JStr "")));
  v ← lower_method
    (py_or (get img "version") (py_or (get img "softwareVersion") (JStr "")));
  t ← lower_method
    (py_or (get img "imageType") (py_or (get img "type") (JStr "")));
  Ret {| ir_family := f; ir_name := n; ir_version := v; ir_imageType := t;
         ir_isGolden := is_golden_of img; ir_createdAt := created_of img;
         ir_inUse := in_use img |}.

Definition p_family (c : filters) (d : ImageRecord) : bool :=
  match given (family (args c)) with
  | Some f => str_in (lower f) (ir_family d)
  | None => true
  end.

Definition p_name_contains (c : filters) (d : ImageRecord) : bool :=
  match given (name_contains (args c)) with
  | Some n => str_in (lower n) (ir_name d)
  | None => true
  end.

Definition p_name_regex (c : filters) (d : ImageRecord) : bool :=
  match name_regex_c c with
  | Some r => re_search r (ir_name d)
  | None => true
  end.

Definition p_version (c : filters) (d : ImageRecord) : bool :=
  match given (version (args c)) with
  | Some v => String.eqb (lower v) (ir_version d)
  | None => true
  end.

Definition p_version_regex (c : filters) (d : ImageRecord) : bool :=
  match v_regex c with
  | Some r => re_search r (ir_version d)
  | None => true
  end.

Definition p_type (c : filters) (d : ImageRecord) : bool :=
  match given (type (args c)) with
  | Some t => str_in (lower t) (ir_imageType d)
  | None => true
  end.

Definition p_golden (c : filters) (d : ImageRecord) : bool :=
  match golden (args c) with
  | Some g => eqb (ir_isGolden d) g
  | None => true
  end.

(** The age predicate: it excludes only a record that has a creation time
    less than the threshold before now. *)
Definition p_age (c : filters) (d : ImageRecord) : bool :=
  match older_than c, ir_createdAt d with
  | Some ot, Some cd => negb (negb (ot =? 0) && (now_utc c - cd <? ot))
  | _, _ => true
  end.

Definition p_unused (c : filters) (d : ImageRecord) : bool :=
  negb (unused_only (args c) && ir_inUse d).

Definition predicates (c : filters) : list (ImageRecord → bool) :=
  [p_family c; p_name_contains c; p_name_regex c; p_version c;
   p_version_regex c; p_type c; p_golden c; p_age c; p_unused c].

(** The conjunction of the predicates [ps], in the order of the list. *)
Definition match_conj (ps : list (ImageRecord → bool)) (img : record) : result bool :=
  d ← normalize img;
  Ret (forallb (λ p, p d) ps).

(** A closure that differs from [c] in the golden filter only. *)
Definition with_golden (g : option bool) (c : filters) : filters :=
  {| args := {| family := family (args c); name_contains := name_contains (args c);
                name_regex := name_regex (args c); version := version (args c);
                version_regex := version_regex (args c); type := type (args c);
                golden := g; older_than_days := older_than_days (args c);
                unused_only := unused_only (args c) |};
     v_regex := v_regex c; name_regex_c := name_regex_c c;
     older_than := older_than c; now_utc := now_utc c |}.

(** Arguments that differ from [a] in [--older-than-days] only. *)
Definition with_older_than_days (n : option Z) (a : Namespace) : Namespace :=
  {| family := family a; name_contains := name_contains a;
     name_regex := name_regex a; version := version a;
     version_regex := version_regex a; type := type a; golden := golden a;
     older_than_days := n; unused_only := unused_only a |}.

(** The entry carries no truthy value under any of the id aliases. *)
Definition lacks_id (img : record) : Prop :=
  truthy (get img "imageUuid") = false ∧ truthy (get img "id") = false ∧
  truthy (get img "imageId") = false.

(** The entry carries no truthy value under any of the golden aliases. *)
Definition not_flagged_golden (img : record) : Prop :=
  truthy (get img "isTaggedGolden") = false ∧ truthy (get img "isGolden") = false ∧
  truthy (get img "golden") = false.

(** ** Vocabulary of the properties *)

(** The computation [m] leaves the controller as it is and only adds
    events that satisfy [P] to the trace. *)
Definition emits {A} (P : event → Prop) (m : M A) : Prop :=
  ∀ w, server (m w).2 = server w ∧ latency (m w).2 = latency w ∧
       ∃ evs, trace (m w).2 = trace w ++ evs ∧ Forall P evs.

(** The event is a request issued by the method [a]. *)
Definition is_request_of (a : api) (e : event) : Prop :=
  match e, a with
  | EvRequest _ ApiTask _, ApiTask => True
  | EvRequest _ ApiRemoveGolden _, ApiRemoveGolden => True
  | EvRequest _ ApiDeleteImage _, ApiDeleteImage => True
  | _, _ => False
  end.

(** The status codes that [delete_image] and [remove_golden] take for
    success. *)
Definition success_status (status : Z) : bool :=
  accepted status || (status =? 204).

(** The world after one more poll of the task at [url]. *)
Definition polled (url : string) (w : world) : world :=
  (request GET ApiTask url w).2.

(** The world after a poll that left the task pending and the wait that
    follows it. *)
Definition idle_poll (url : string) (poll_interval : Q) (w : world) : world :=
  (time_sleep poll_interval (polled url w)).2.

(** The next request of [w] meets a task, decoded as [data], that reports
    neither an error nor completion. *)
Definition pending_reply (w : world) (data : json) : Prop :=
  ∃ r progress is_error failure,
    server w (sent w) = Responds r ∧ status_code r = 200 ∧
    task_fields r = Ret (data, progress, is_error, failure) ∧
    truthy is_error = false ∧ truthy failure = false ∧
    truthy progress &&
      existsb (λ k, str_in k (lower (str progress))) completion_keywords = false.

(** The elapsed-time check of line 94, made after the next poll of [w]. *)
Definition timed_out (url : string) (start : Q) (timeout : Z) (w : world) : bool :=
  Qltb (inject_Z timeout) (clock (polled url w) - start).

(** A number of iterations that [get_task] cannot exceed when the clock
    does not run backwards. *)
Definition poll_bound (timeout : Z) (poll_interval : Q) : nat :=
  S (S (Z.to_nat (Qfloor (inject_Z timeout / poll_interval)))).

(** An accepted request (200, 202) carries a JSON object whose [response]
    member is absent, falsy or an object. *)
Definition decodable (r : response) : Prop :=
  accepted (status_code r) = true →
  ∃ o, json_body r = Some (JObj o) ∧
       (truthy (get o "response") = true → ∃ o', get o "response" = JObj o').



(** The status and the body text of the reply to the [n]-th request. *)
Definition status_at (w : world) (n : nat) : Z :=
  match server w n with
  | Responds r => status_code r
  | Fails _ => 0
  end.

Definition text_at (w : world) (n : nat) : string :=
  match server w n with
  | Responds r => text r
  | Fails _ => ""
  end.

(** The (path, status) pairs of the requests numbered [n], [n+1], ... for
    the paths [paths], and the body text of the last of them. *)
Fixpoint attempts (w : world) (n : nat) (paths : list string) : list (string * Z) :=
  match paths with
  | [] => []
  | path :: paths => (path, status_at w n) :: attempts w (S n) paths
  end.

Fixpoint last_text_of (w : world) (n : nat) (paths : list string) (last : string)
    : string :=
  match paths with
  | [] => last
  | _ :: paths => last_text_of w (S n) paths (text_at w n)
  end.

(** The reply to the [n]-th request is a response whose status is none of
    200, 202, 204. *)
Definition refused (w : world) (n : nat) : Prop :=
  ∃ r, server w n = Responds r ∧ success_status (status_code r) = false.

(** The response means success with the task handle [tid]: 200 or 202 with
    the handle in its body, or 204 with no content. *)
Definition succeeded_with (r : response) (tid : json) : Prop :=
  (accepted (status_code r) = true ∧ task_id_of r = Ret tid) ∨
  (status_code r = 204 ∧ tid = JNull).

(** The DELETE requests of [delete_image] for the paths [paths]. *)
Definition delete_requests (base : string) (paths : list string) : list event :=
  map (λ path, EvRequest DELETE ApiDeleteImage (base +:+ path)) paths.







(** The URL of [remove_golden]. *)
Definition golden_url (base site_id family_id role : string) (image_id : json)
    : string :=
  base +:+ "/dna/intent/api/v1/image/importation/golden/site/" +:+ site_id
  +:+ "/family/" +:+ family_id +:+ "/role/" +:+ role
  +:+ "/image/" +:+ str image_id.

(** Whenever the computation [m] returns a value, the value satisfies
    [Q]. *)
Definition post {A} (Q : A → Prop) (m : M A) : Prop :=
  ∀ w a w', m w = (Ret a, w') → Q a.

(** ** Vocabulary of the further properties *)

Definition is_text (v : json) : bool :=
  match v with
  | JStr _ => true
  | _ => false
  end.

(** The four text fields of the entry, as [_match] reads them, are strings
    (an absent or falsy field reads as the empty string). *)
Definition well_typed (img : record) : bool :=
  is_text (py_or (get img "family") (py_or (get img "familyName") (JStr "")))
  && is_text (py_or (get img "name") (py_or (get img "imageName") (JStr "")))
  && is_text (py_or (get img "version") (py_or (get img "softwareVersion") (JStr "")))
  && is_text (py_or (get img "imageType") (py_or (get img "type") (JStr ""))).

(** The entry is accepted by the matcher. *)
Definition kept (c : filters) (img : record) : bool :=
  match _match c img with
  | Ret true => true
  | _ => false
  end.

(** The arguments set no criterion: every option is absent or falsy. *)
Definition no_criteria (a : Namespace) : Prop :=
  given (family a) = None ∧ given (name_contains a) = None ∧
  given (name_regex a) = None ∧ given (version a) = None ∧
  given (version_regex a) = None ∧ given (type a) = None ∧
  golden a = None ∧
  (older_than_days a = None ∨ older_than_days a = Some 0) ∧
  unused_only a = false.

(** A closure that differs from [c] in [unused_only] only. *)
Definition with_unused_only (b : bool) (c : filters) : filters :=
  {| args := {| family := family (args c); name_contains := name_contains (args c);
                name_regex := name_regex (args c); version := version (args c);
                version_regex := version_regex (args c); type := type (args c);
                golden := golden (args c);
                older_than_days := older_than_days (args c);
                unused_only := b |};
     v_regex := v_regex c; name_regex_c := name_regex_c c;
     older_than := older_than c; now_utc := now_utc c |}.

(** The usage count that the [unused_only] check converts with [int]. *)
Definition used_of (img : record) : json :=
  py_or (get img "usedDevicesCount")
    (py_or (get img "usingDeviceCount") (py_or (get img "deviceCount") (JInt 0))).

(** What the program writes to the console. *)
Definition is_output (e : event) : Prop :=
  match e with
  | EvLog _ | EvJson _ => True
  | _ => False
  end.

(** [k] rounds of poll and wait, as they appear in the trace. *)
Fixpoint poll_rounds (url : string) (poll_interval : Q) (k : nat) : list event :=
  match k with
  | O => []
  | S k => EvRequest GET ApiTask url :: EvSleep poll_interval
           :: poll_rounds url poll_interval k
  end.

(** The world [w] with the events [evs] added to its trace. *)
Definition with_events (w : world) (evs : list event) : world :=
  {| server := server w; latency := latency w; sent := sent w;
     clock := clock w; stdin := stdin w; trace := trace w ++ evs |}.

(** What lines 296-300 of [main] write for the candidate table. *)
Definition listing_events (cli : Args) (table : list row) : list event :=
  if arg_json cli then []
  else [EvLog (nl +:+ "Candidates:")]
       ++ map (λ r, EvLog (row_line r)) table
       ++ [EvLog (nl +:+ "Total matches: " +:+ str_int (Z.of_nat (length table)))].

(** The prompt of the confirmation in [main]. *)
Definition confirm_prompt (table : list row) : string :=
  ("Proceed to delete up to " +:+ str_int (Z.of_nat (length table))
   +:+ " image(s)?") +:+ " [y/N]: ".

(** What the loop body may return for the row [r]: the row itself, deleted
    only with an id, and failed with "missing imageUuid" exactly without
    one. *)
Definition outcome_respects_id (r : row) (o : outcome) : Prop :=
  match o with
  | Deleted r' => r' = r ∧ truthy (imageUuid r) = true
  | Failed r' error =>
      r' = r ∧ (error = "missing imageUuid" ↔ truthy (imageUuid r) = false)
  end.

End Program.

(** ** Start-up: [die], the construction of [CatalystCenter], the
    inventory *)

(** What the start of a run does: go on with a value, end the process
    through [die] (a logged message and [sys.exit(code)]), or raise.
    [Unfinished] stands for a model out of fuel; the code below never is. *)
Inductive startup (A : Type) :=
| Started (a : A)
| Exited (message : string) (code : Z)
| Crashed (e : exn)
| CrashedTypeError
| Unfinished.
Arguments Started {A} a.
Arguments Exited {A} message code.
Arguments Crashed {A} e.
Arguments CrashedTypeError {A}.
Arguments Unfinished {A}.

(** [die(msg)]: [log(f"ERROR: {msg}")], then [sys.exit(1)]. *)
Definition die {A} (msg : string) : startup A := Exited ("ERROR: " +:+ msg) 1.

Definition started_of {A} (r : result A) : startup A :=
  match r with
  | Ret a => Started a
  | Raise e => Crashed e
  | OutOfFuel => Unfinished
  end.

(** [s.rstrip("/")] *)
Fixpoint rstrip_slash (s : string) : string :=
  match s with
  | EmptyString => EmptyString
  | String c rest =>
      match rstrip_slash rest with
      | EmptyString =>
          if Ascii.eqb c "/"%char then EmptyString else String c EmptyString
      | rest' => String c rest'
      end
  end.

(** A run of [n] slashes. *)
Fixpoint slashes (n : nat) : string :=
  match n with
  | O => EmptyString
  | S n => String "/"%char (slashes n)
  end.

(** [CatalystCenter._login], given what the POST of the credentials to
    [/dna/system/api/v1/auth/token] meets; the result is the value stored
    as the [X-Auth-Token] header. *)
Definition _login (post : reply) : startup json :=
  match post with
  | Fails e => Crashed e
  | Responds r =>
      if negb ((status_code r =? 200) || (status_code r =? 201)) then
        die ("Auth failed (" +:+ str_int (status_code r) +:+ "): " +:+ text r)
      else
        match json_body r with
        | None => Crashed JSONDecodeError
        | Some (JObj o) =>
            let token := py_or (get o "Token") (get o "token") in
            if truthy token then Started token
            else die "Auth succeeded but no token in response"
        | Some _ => Crashed AttributeError
        end
  end.

(** The fields of a [CatalystCenter] that its methods read. *)
Record CatalystCenter := {
  cc_base : string;
  cc_verify : bool;
  cc_token : json;
}.

(** [CatalystCenter.__init__]; [post] is what the login request meets if
    it is sent. *)
Definition CatalystCenter_init (base_url : string)
    (username password token : option string) (verify : bool) (post : reply)
    : startup CatalystCenter :=
  let base := rstrip_slash base_url in
  match given token with
  | Some t => Started {| cc_base := base; cc_verify := verify; cc_token := JStr t |}
  | None =>
      match given username, given password with
      | Some _, Some _ =>
          match _login post with
          | Started t =>
              Started {| cc_base := base; cc_verify := verify; cc_token := t |}
          | Exited message code => Exited message code
          | Crashed e => Crashed e
          | CrashedTypeError => CrashedTypeError
          | Unfinished => Unfinished
          end
      | _, _ => die "Provide either --token OR --username/--password"
      end
  end.

(** [CatalystCenter.list_images], given what the GET of
    [/dna/intent/api/v1/image/importation] meets. *)
Definition list_images (get_reply : reply) : startup json :=
  match get_reply with
  | Fails e => Crashed e
  | Responds r =>
      if negb (status_code r =? 200) then
        die ("List images failed (" +:+ str_int (status_code r) +:+ "): "
             +:+ text r)
      else
        match json_body r with
        | None => Crashed JSONDecodeError
        | Some (JObj o) => Started (py_or (get o "response") (JObj o))
        | Some _ => Crashed AttributeError
        end
  end.

Section Inventory.
Context `{RT : PyRuntime}.

(** The comprehension [[img for img in images if match_fn(img)]] over the
    elements of a JSON array: an element that is not an object has no
    [get]. *)
Fixpoint select_elements (c : filters) (elements : list json)
    : result (list record) :=
  match elements with
  | [] => Ret []
  | JObj img :: elements =>
      keep ← _match c img;
      rest ← select_elements c elements;
      Ret (if keep : bool then img :: rest else rest)
  | _ :: _ => Raise AttributeError
  end.

(** The same comprehension over whatever [list_images] returned: an
    array yields its elements, an object its keys and a string its
    characters (strings, which have no [get]); the other values are not
    iterable. *)
Definition select_inventory (c : filters) (images : json)
    : startup (list record) :=
  match images with
  | JArr elements => started_of (select_elements c elements)
  | JObj o => if bool_decide (o = ∅) then Started [] else Crashed AttributeError
  | JStr s => if String.eqb s "" then Started [] else Crashed AttributeError
  | JNull | JBool _ | JInt _ | JFloat _ => CrashedTypeError
  end.

End Inventory.

(** ** A concrete runtime

    ASCII text, patterns that are literal substrings, timestamps as epoch
    seconds: enough to run the program on examples. *)

Definition ascii_lower (c : ascii) : ascii :=
  let n := nat_of_ascii c in
  if ((65 <=? n) && (n <=? 90))%nat then ascii_of_nat (n + 32) else c.

Fixpoint string_lower (s : string) : string :=
  match s with
  | EmptyString => EmptyString
  | String c rest => String (ascii_lower c) (string_lower rest)
  end.

Definition simple_repr (v : json) : string :=
  match v with
  | JNull => "None"
  | JBool true => "True"
  | JBool false => "False"
  | JInt n => pretty n
  | JStr s => s
  | _ => "<value>"
  end.

Definition ascii_runtime : PyRuntime := {|
  lower := string_lower;
  strip := λ s, s;
  repr := simple_repr;
  repr_tried := λ tried,
    "[" +:+ foldr (λ '(p, st) acc,
                     "('" +:+ p +:+ "', " +:+ pretty st +:+ ")" +:+ acc)
              "]" tried;
  int_of_str := λ _, None;
  regex := string;
  re_compile := Some;
  re_search := str_in;
  fromisoformat := λ _, None;
  utcfromtimestamp := λ t, Some (Qfloor (t * 1000000));
|}.

(** ** Example inventory, arguments and controllers *)

Definition img_a : record :=
  <["imageUuid" := JStr "u1"]> (<["name" := JStr "cat9k_iosxe.17.09.04a.bin"]>
  (<["family" := JStr "Cat9K"]> (<["version" := JStr "17.9.4a"]> ∅))).

Definition img_golden : record :=
  <["imageUuid" := JStr "u2"]> (<["name" := JStr "cat9k_iosxe.17.06.05.bin"]>
  (<["family" := JStr "CAT9K"]> (<["isTaggedGolden" := JBool true]> ∅))).

(** An entry of another family, without an id. *)
Definition img_no_id : record :=
  <["name" := JStr "isr4400.bin"]> (<["family" := JStr "ISR4K"]> ∅).

Definition no_filter : Namespace := {|
  family := None; name_contains := None; name_regex := None; version := None;
  version_regex := None; type := None; golden := None;
  older_than_days := None; unused_only := false;
|}.

Definition match_all : @filters ascii_runtime := {|
  args := no_filter; v_regex := None; name_regex_c := None;
  older_than := None; now_utc := 1700000000000000;
|}.

Definition cat9k_filter : @filters ascii_runtime := {|
  args := {| family := Some "cat9k"; name_contains := None; name_regex := None;
             version := None; version_regex := None; type := None;
             golden := None; older_than_days := None; unused_only := false |};
  v_regex := None; name_regex_c := None;
  older_than := None; now_utc := 1700000000000000;
|}.

Definition month_old : @filters ascii_runtime := {|
  args := with_older_than_days (Some 30) no_filter;
  v_regex := None; name_regex_c := None;
  older_than := Some (30 * 86400000000); now_utc := 1700000000000000;
|}.

Definition any_age : @filters ascii_runtime := {|
  args := with_older_than_days None no_filter;
  v_regex := None; name_regex_c := None;
  older_than := None; now_utc := 1700000000000000;
|}.

Definition cli_yes : Args := {|
  arg_family := Some "cat9k"; arg_type := None; arg_name_contains := None;
  arg_name_regex := None; arg_version := None; arg_version_regex := None;
  arg_golden := GoldenAny; arg_older_than_days := None; arg_unused_only := false;
  arg_limit := 1;
  arg_site_id := Some "-1"; arg_device_family_identifier := Some "277696480";
  arg_device_role := Some "ALL";
  arg_dry_run := false; arg_yes := true; arg_json := true;
|}.

Definition row_a : row := img_row img_a.
Definition row_golden_ex : row := img_row img_golden.

Definition no_content : response :=
  {| status_code := 204; text := ""; json_body := None |}.

Definition not_found : response :=
  {| status_code := 404; text := "not found"; json_body := None |}.

Definition accepted_task : response :=
  {| status_code := 202; text := "";
     json_body :=
       Some (JObj (<["response" := JObj (<["taskId" := JStr "t9"]> ∅)]> ∅)) |}.

Definition running_task : gmap string json := <["progress" := JStr "running"]> ∅.

Definition task_running : response :=
  {| status_code := 200; text := "";
     json_body := Some (JObj (<["response" := JObj running_task]> ∅)) |}.

Definition failed_task : gmap string json :=
  <["progress" := JStr "Deletion completed"]> (<["failureReason" := JStr "boom"]> ∅).

Definition task_failed : response :=
  {| status_code := 200; text := "";
     json_body := Some (JObj (<["response" := JObj failed_task]> ∅)) |}.

Definition world_of (replies : nat → reply) (lat : Q) : world :=
  {| server := replies; latency := λ _, lat; sent := 0; clock := 1700000000;
     stdin := []; trace := [] |}.

(** Every request is answered 204. *)
Definition w_no_content : world := world_of (λ _, Responds no_content) 0.

(** The controller cannot be reached. *)
Definition w_down : world := world_of (λ _, Fails ConnectionError) 0.

(** The first path is refused, the second accepted with a task handle. *)
Definition w_fallback : world :=
  world_of (λ n, match n with
                 | O => Responds not_found
                 | _ => Responds accepted_task
                 end) 0.

(** The task never leaves "running"; each poll takes one second. *)
Definition w_running : world := world_of (λ _, Responds task_running) 1.

(** The first poll reports a failure. *)
Definition w_failed : world := world_of (λ _, Responds task_failed) 0.

(** The removal of the golden tag is accepted with a task handle, and the
    task then fails. *)
Definition w_golden_fails : world :=
  world_of (λ n, match n with
                 | O => Responds accepted_task
                 | _ => Responds task_failed
                 end) 0.

Definition task_url : string := "https://cc/dna/intent/api/v1/task/t9".

(** Like [cli_yes], without a limit. *)
Definition cli_all : Args := {|
  arg_family := Some "cat9k"; arg_type := None; arg_name_contains := None;
  arg_name_regex := None; arg_version := None; arg_version_regex := None;
  arg_golden := GoldenAny; arg_older_than_days := None; arg_unused_only := false;
  arg_limit := 0;
  arg_site_id := None; arg_device_family_identifier := None;
  arg_device_role := None;
  arg_dry_run := false; arg_yes := true; arg_json := true;
|}.

Definition not_golden_only : @filters ascii_runtime :=
  with_golden (Some false) match_all.

(** ** Further examples *)

(** An entry whose name is a number. *)
Definition img_numeric_name : record :=
  <["imageUuid" := JStr "u3"]> (<["name" := JInt 5]> (<["family" := JStr "Cat9K"]> ∅)).

(** An entry in use by three devices. *)
Definition img_in_use : record :=
  <["imageUuid" := JStr "u4"]> (<["family" := JStr "Cat9K"]>
  (<["usedDevicesCount" := JInt 3]> ∅)).

Definition unused_filter : @filters ascii_runtime := with_unused_only true match_all.

Definition done_task : gmap string json :=
  <["progress" := JStr "Image Deletion COMPLETED"]> ∅.

Definition task_done : response :=
  {| status_code := 200; text := "";
     json_body := Some (JObj (<["response" := JObj done_task]> ∅)) |}.

(** The task is running at the first poll and complete at the second. *)
Definition w_done : world :=
  world_of (λ n, match n with
                 | O => Responds task_running
                 | _ => Responds task_done
                 end) 0.

(** Every request is answered 404. *)
Definition w_refused : world := world_of (λ _, Responds not_found) 0.

(** The operator answers "YES". *)
Definition w_answer_yes : world :=
  {| server := λ _, Responds no_content; latency := λ _, 0%Q; sent := 0;
     clock := 1700000000; stdin := ["YES"]; trace := [] |}.

Definition cli_dry : Args := {|
  arg_family := Some "cat9k"; arg_type := None; arg_name_contains := None;
  arg_name_regex := None; arg_version := None; arg_version_regex := None;
  arg_golden := GoldenAny; arg_older_than_days := None; arg_unused_only := false;
  arg_limit := 0;
  arg_site_id := None; arg_device_family_identifier := None;
  arg_device_role := None;
  arg_dry_run := true; arg_yes := true; arg_json := true;
|}.

(** No [--yes]: the run asks for confirmation. *)
Definition cli_ask : Args := {|
  arg_family := Some "cat9k"; arg_type := None; arg_name_contains := None;
  arg_name_regex := None; arg_version := None; arg_version_regex := None;
  arg_golden := GoldenAny; arg_older_than_days := None; arg_unused_only := false;
  arg_limit := 0;
  arg_site_id := None; arg_device_family_identifier := None;
  arg_device_role := None;
  arg_dry_run := false; arg_yes := false; arg_json := true;
|}.

(** An inventory answer for a controller without images. *)
Definition empty_inventory : gmap string json := <["response" := JArr []]> ∅.

Definition inventory_reply : response :=
  {| status_code := 200; text := ""; json_body := Some (JObj empty_inventory) |}.

(** * Properties *)

Section Properties.
Context `{RT : PyRuntime}.

(** ** Filter engine *)

Lemma forallb_Permutation {A} (f : A → bool) (ps qs : list A) :
  ps ≡ₚ qs → forallb f ps = forallb f qs.
Proof.
  induction 1 as [|p ps qs _ IH|p q ps|ps qs rs _ IH1 _ IH2]; simpl.
  - reflexivity.
  - by rewrite IH.
  - by destruct (f p), (f q).
  - by rewrite IH1.
Qed.

(** The early-return chain of [_match] computes the conjunction of the
    nine predicates, taken in the order of the source. *)
Lemma _match_conj (c : filters) (img : record) :
  _match c img = match_conj (predicates c) img.
Proof.
  unfold _match, match_conj, normalize, mbind, result_mbind.
  destruct (lower_method (py_or (get img "family") _)) as [f| |];
    simpl; [|reflexivity..].
  destruct (lower_method (py_or (get img "name") _)) as [n| |];
    simpl; [|reflexivity..].
  destruct (lower_method (py_or (get img "version") _)) as [v| |];
    simpl; [|reflexivity..].
  destruct (lower_method (py_or (get img "imageType") _)) as [t| |];
    simpl; [|reflexivity..].
  unfold p_family, p_name_contains, p_name_regex, p_version, p_version_regex,
    p_type, p_golden, p_age, p_unused; simpl.
  destruct (given (family (args c))) as [x|]; simpl;
    [destruct (str_in _ f); simpl; [|reflexivity]|].
  all: destruct (given (name_contains (args c))) as [x1|]; simpl;
    [destruct (str_in _ n); simpl; [|reflexivity]|].
  all: destruct (name_regex_c c) as [x2|]; simpl;
    [destruct (re_search _ n); simpl; [|reflexivity]|].
  all: destruct (given (version (args c))) as [x3|]; simpl;
    [destruct (String.eqb _ v); simpl; [|reflexivity]|].
  all: destruct (v_regex c) as [x4|]; simpl;
    [destruct (re_search _ v); simpl; [|reflexivity]|].
  all: destruct (given (type (args c))) as [x5|]; simpl;
    [destruct (str_in _ t); simpl; [|reflexivity]|].
  all: destruct (golden (args c)) as [x6|]; simpl;
    [destruct (eqb _ x6); simpl; [|reflexivity]|].
  all: destruct (older_than c) as [ot|], (created_of img) as [cd|]; simpl;
    try destruct (negb (ot =? 0) && _); simpl; try reflexivity.
  all: destruct (unused_only (args c) && in_use img); reflexivity.
Qed.

Lemma match_conj_normalized (ps : list (ImageRecord → bool)) img d :
  normalize img = Ret d → match_conj ps img = Ret (forallb (λ p, p d) ps).
Proof. unfold match_conj. by intros ->. Qed.

Lemma match_conj_raises (ps qs : list (ImageRecord → bool)) img :
  (∀ d, normalize img ≠ Ret d) → match_conj ps img = match_conj qs img.
Proof.
  unfold match_conj. destruct (normalize img) as [d| |]; [|reflexivity..].
  intros H. by destruct (H d).
Qed.

(** What [compile_filters] captures. *)
Lemma compile_filters_inv (a : Namespace) (utcnow : datetime) (c : filters) :
  compile_filters a utcnow = Ret c →
  args c = a ∧ now_utc c = utcnow ∧
  compile_opt (version_regex a) = Ret (v_regex c) ∧
  compile_opt (name_regex a) = Ret (name_regex_c c) ∧
  older_than c = match older_than_days a with
                 | Some n => if n =? 0 then None else Some (n * 86400000000)
                 | None => None
                 end.
Proof.
  unfold compile_filters, mbind, result_mbind.
  destruct (compile_opt (version_regex a)) as [vr| |]; simpl; [|done..].
  destruct (compile_opt (name_regex a)) as [nr| |]; simpl; [|done..].
  destruct (older_than_days a) as [n|]; simpl.
  - destruct (n =? 0); simpl.
    + intros [= <-]; by simpl.
    + unfold timedelta_days. destruct (Z.abs n <=? 999999999); simpl; [|done].
      intros [= <-]; by simpl.
  - intros [= <-]; by simpl.
Qed.

(** C8. The matcher is a conjunction of independent predicates: taking
    the nine predicates in any order gives the decision of [_match]; and a
    record whose (lower-cased) family does not contain the lower-cased
    family filter is rejected, however the other predicates are set. *)
Theorem match_is_order_independent_conjunction
    (c : filters) (img : record) (ps : list (ImageRecord → bool)) :
  ps ≡ₚ predicates c →
  _match c img = match_conj ps img ∧
  (∀ fam d, given (family (args c)) = Some fam →
            normalize img = Ret d →
            str_in (lower fam) (ir_family d) = false →
            match_conj ps img = Ret false).
Proof.
  intros Hperm. rewrite _match_conj. unfold match_conj.
  assert (Heq : ∀ d, forallb (λ p, p d) ps = forallb (λ p, p d) (predicates c))
    by (intros d; by apply forallb_Permutation).
  split.
  - destruct (normalize img) as [d| |]; simpl; [|reflexivity..].
    by rewrite Heq.
  - intros fam d Hfam -> Hin; simpl. rewrite Heq; simpl.
    unfold p_family at 1. by rewrite Hfam, Hin.
Qed.

(** C7. The age filter spares every record without a parseable creation
    time: with and without [--older-than-days N] the decision of the
    matcher is the same.  Where the age filter changes the decision, the
    record has a parsed creation time less than [N] days before now. *)
Theorem age_filter_spares_undated_records
    (a : Namespace) (N : Z) (utcnow : datetime) (img : record) (c c0 : filters) :
  compile_filters (with_older_than_days (Some N) a) utcnow = Ret c →
  compile_filters (with_older_than_days None a) utcnow = Ret c0 →
  (created_of img = None → _match c img = _match c0 img) ∧
  (_match c img ≠ _match c0 img →
   ∃ cd, created_of img = Some cd ∧ utcnow - cd < N * 86400000000).
Proof.
  intros (Ha & Hnow & Hv & Hn & Hot)%compile_filters_inv
         (Ha0 & Hnow0 & Hv0 & Hn0 & Hot0)%compile_filters_inv.
  simpl in *. rewrite Hv in Hv0. rewrite Hn in Hn0.
  injection Hv0 as Hv0. injection Hn0 as Hn0.
  rewrite !_match_conj. unfold match_conj, normalize, mbind, result_mbind.
  destruct (lower_method (py_or (get img "family") _)) as [f| |];
    simpl; [|by split..].
  destruct (lower_method (py_or (get img "name") _)) as [n| |];
    simpl; [|by split..].
  destruct (lower_method (py_or (get img "version") _)) as [v| |];
    simpl; [|by split..].
  destruct (lower_method (py_or (get img "imageType") _)) as [t| |];
    simpl; [|by split..].
  unfold p_family, p_name_contains, p_name_regex, p_version, p_version_regex,
    p_type, p_golden, p_unused, p_age; simpl.
  rewrite Ha, Ha0, <- Hv0, <- Hn0, Hot, Hot0; simpl.
  destruct (N =? 0) eqn:HN; [by split|].
  destruct (created_of img) as [cd|]; [|by split].
  split; [done|]. intros Hne. exists cd. split; [done|].
  rewrite Hnow in Hne.
  destruct (utcnow - cd <? N * 86400000000) eqn:Hlt; [by apply Z.ltb_lt|].
  exfalso. apply Hne. by rewrite andb_false_r.
Qed.

(** The golden flag of an entry that carries no truthy alias is [False]. *)
Lemma not_flagged_is_not_golden (img : record) :
  not_flagged_golden img → is_golden_of img = false.
Proof.
  intros (H1 & H2 & H3). unfold is_golden_of, py_or. by rewrite H1, H2.
Qed.

Lemma normalize_isGolden (img : record) (d : ImageRecord) :
  normalize img = Ret d → ir_isGolden d = is_golden_of img.
Proof.
  unfold normalize, mbind, result_mbind.
  destruct (lower_method (py_or (get img "family") _)); simpl; [|done..].
  destruct (lower_method (py_or (get img "name") _)); simpl; [|done..].
  destruct (lower_method (py_or (get img "version") _)); simpl; [|done..].
  destruct (lower_method (py_or (get img "imageType") _)); simpl; [|done..].
  intros [= Hd]. by rewrite <- Hd.
Qed.

Lemma golden_false_filter_is_transparent (c : filters) (img : record) :
  is_golden_of img = false → golden (args c) = Some false →
  _match c img = _match (with_golden None c) img.
Proof.
  intros Hg Hc. rewrite !_match_conj. unfold match_conj.
  destruct (normalize img) as [d| |] eqn:Hd; simpl; [|reflexivity..].
  assert (ir_isGolden d = false) as Hd'
    by (by rewrite (normalize_isGolden _ _ Hd)).
  unfold p_family, p_name_contains, p_name_regex, p_version, p_version_regex,
    p_type, p_golden, p_unused, p_age; simpl.
  by rewrite Hc, Hd'.
Qed.

Lemma golden_true_filter_rejects (c : filters) (img : record) :
  is_golden_of img = false → golden (args c) = Some true →
  _match c img ≠ Ret true ∧
  (∀ d, normalize img = Ret d → _match c img = Ret false).
Proof.
  intros Hg Hc. rewrite !_match_conj. unfold match_conj.
  destruct (normalize img) as [d| |] eqn:Hd; simpl; [|by split..].
  assert (ir_isGolden d = false) as Hd'
    by (by rewrite (normalize_isGolden _ _ Hd)).
  assert (p_golden c d = false) as Hp by (unfold p_golden; by rewrite Hc, Hd').
  rewrite Hp, !andb_false_r. split; [done|]. by intros.
Qed.

(** ** The monad *)

Lemma bind_unfold {A B} (m : M A) (f : A → M B) (w : world) :
  (m ≫= f) w = match m w with
               | (Ret a, w') => f a w'
               | (Raise e, w') => (Raise e, w')
               | (OutOfFuel, w') => (OutOfFuel, w')
               end.
Proof. reflexivity. Qed.

Lemma emits_weaken {A} (P Q : event → Prop) (m : M A) :
  (∀ e, P e → Q e) → emits P m → emits Q m.
Proof.
  intros HPQ Hm w. destruct (Hm w) as (Hs & Hl & evs & Ht & HP).
  repeat split; [done..|]. exists evs. split; [done|].
  eapply Forall_impl; eauto.
Qed.

Lemma emits_ret {A} (P : event → Prop) (a : A) : emits P (mret a).
Proof. intros w. repeat split. exists []. by rewrite app_nil_r. Qed.

Lemma emits_lift {A} (P : event → Prop) (r : result A) : emits P (lift r).
Proof. intros w. repeat split. exists []. by rewrite app_nil_r. Qed.

Lemma emits_bind {A B} (P : event → Prop) (m : M A) (f : A → M B) :
  emits P m → (∀ a, emits P (f a)) → emits P (m ≫= f).
Proof.
  intros Hm Hf w. rewrite bind_unfold.
  destruct (Hm w) as (Hs & Hl & evs & Ht & HP).
  destruct (m w) as [[a|e|] w']; simpl in *.
  - destruct (Hf a w') as (Hs' & Hl' & evs' & Ht' & HP').
    rewrite Hs', Hl', Ht', Hs, Hl, Ht. repeat split.
    exists (evs ++ evs'). rewrite app_assoc. split; [done|].
    by apply Forall_app.
  - repeat split; [done..|]. by exists evs.
  - repeat split; [done..|]. by exists evs.
Qed.

Lemma emits_request (P : event → Prop) m a url :
  P (EvRequest m a url) → emits P (request m a url).
Proof.
  intros HP w. unfold request. destruct (server w (sent w)); simpl;
    (repeat split; exists [EvRequest m a url]; split; [done|by constructor]).
Qed.

Lemma emits_log (P : event → Prop) msg : P (EvLog msg) → emits P (log msg).
Proof.
  intros HP w. repeat split. exists [EvLog msg]. split; [done|by constructor].
Qed.

Lemma emits_time_time (P : event → Prop) : emits P time_time.
Proof. intros w. repeat split. exists []. by rewrite app_nil_r. Qed.

Lemma emits_time_sleep (P : event → Prop) d : P (EvSleep d) → emits P (time_sleep d).
Proof.
  intros HP w. unfold time_sleep. destruct (Qltb d 0); simpl; repeat split.
  - exists []. by rewrite app_nil_r.
  - exists [EvSleep d]. split; [done|by constructor].
Qed.

Lemma emits_out_of_fuel {A} (P : event → Prop) :
  emits P (λ w, (@OutOfFuel A, w)).
Proof. intros w. repeat split. exists []. by rewrite app_nil_r. Qed.

(** ** Task poller *)

Lemma emits_get_task_loop (P : event → Prop) fuel url start timeout pi :
  (∀ u, P (EvRequest GET ApiTask u)) → P (EvSleep pi) →
  emits P (get_task_loop fuel url start timeout pi).
Proof.
  intros Hreq Hsleep. induction fuel as [|fuel IH]; simpl.
  - apply emits_out_of_fuel.
  - apply emits_bind; [by apply emits_request|]. intros r.
    destruct (negb _); [apply emits_ret|].
    apply emits_bind; [apply emits_lift|]. intros [[[data progress] is_error] failure].
    destruct (_ || _); [apply emits_ret|].
    destruct (_ && _); [apply emits_ret|].
    apply emits_bind; [apply emits_time_time|]. intros t.
    destruct (Qltb _ _); [apply emits_ret|].
    apply emits_bind; [by apply emits_time_sleep|]. intros _. apply IH.
Qed.

Lemma emits_get_task (P : event → Prop) fuel base task_id timeout pi :
  (∀ u, P (EvRequest GET ApiTask u)) → P (EvSleep pi) →
  emits P (get_task fuel base task_id timeout pi).
Proof.
  intros Hreq Hsleep. unfold get_task.
  apply emits_bind; [apply emits_time_time|]. intros t.
  by apply emits_get_task_loop.
Qed.

Lemma Qltb_false_le (x y : Q) : Qltb x y = false ↔ (y <= x)%Q.
Proof.
  unfold Qltb. rewrite negb_false_iff. apply Qle_bool_iff.
Qed.

Lemma Qltb_true_lt (x y : Q) : Qltb x y = true ↔ (x < y)%Q.
Proof.
  unfold Qltb. rewrite negb_true_iff. split.
  - intros H. apply Qnot_le_lt. intros Hle%Qle_bool_iff. congruence.
  - intros H. destruct (Qle_bool y x) eqn:E; [|done].
    apply Qle_bool_iff in E. by apply Qle_not_lt in E.
Qed.

(** One iteration of the loop on a reply that is not status 200. *)
Lemma get_task_loop_query_failed fuel url start timeout pi w r :
  server w (sent w) = Responds r → status_code r ≠ 200 →
  get_task_loop (S fuel) url start timeout pi w =
    (Ret (TaskError (JStr ("task query failed " +:+ str_int (status_code r)))
                    (JStr (text r))), polled url w).
Proof.
  intros Hr Hs. simpl. rewrite bind_unfold. unfold polled, request. rewrite Hr.
  by apply Z.eqb_neq in Hs as ->.
Qed.

(** One iteration of the loop on a reply that carries an error. *)
Lemma get_task_loop_failed fuel url start timeout pi w r data progress is_error failure :
  server w (sent w) = Responds r → status_code r = 200 →
  task_fields r = Ret (data, progress, is_error, failure) →
  truthy is_error || truthy failure = true →
  get_task_loop (S fuel) url start timeout pi w =
    (Ret (TaskError (py_or failure (JStr "task reported error")) data), polled url w).
Proof.
  intros Hr Hs Hf He. simpl. rewrite bind_unfold. unfold polled, request.
  rewrite Hr, Hs. simpl. rewrite bind_unfold. unfold lift. rewrite Hf.
  by rewrite He.
Qed.

(** One iteration of the loop on a pending reply, after the timeout. *)
Lemma get_task_loop_timeout fuel url start timeout pi w data :
  pending_reply w data → timed_out url start timeout w = true →
  get_task_loop (S fuel) url start timeout pi w =
    (Ret (TaskError (JStr "task timeout") data), polled url w).
Proof.
  intros (r & progress & is_error & failure & Hr & Hs & Hf & He1 & He2 & Hk) Ht.
  unfold timed_out, polled in Ht.
  simpl. rewrite bind_unfold. unfold polled, request in *.
  rewrite Hr in *. rewrite Hs. simpl. rewrite bind_unfold. unfold lift. rewrite Hf.
  rewrite He1, He2. simpl in *. rewrite Hk.
  rewrite bind_unfold. unfold time_time. simpl. by rewrite Ht.
Qed.

(** One iteration of the loop on a pending reply, before the timeout. *)
Lemma get_task_loop_idle fuel url start timeout pi w data :
  pending_reply w data → timed_out url start timeout w = false → (0 <= pi)%Q →
  get_task_loop (S fuel) url start timeout pi w =
    get_task_loop fuel url start timeout pi (idle_poll url pi w).
Proof.
  intros (r & progress & is_error & failure & Hr & Hs & Hf & He1 & He2 & Hk) Ht Hpi.
  unfold timed_out, polled in Ht.
  simpl. rewrite bind_unfold. unfold idle_poll, polled, request in *.
  rewrite Hr in *. rewrite Hs. simpl. rewrite bind_unfold. unfold lift. rewrite Hf.
  rewrite He1, He2. simpl in *. rewrite Hk.
  rewrite bind_unfold. unfold time_time. simpl. rewrite Ht.
  rewrite bind_unfold. unfold time_sleep.
  by apply Qltb_false_le in Hpi as ->.
Qed.

(** [k] pending polls in a row are [k] iterations of the loop. *)
Lemma get_task_loop_skip k fuel url start timeout pi w :
  (0 <= pi)%Q →
  (∀ j, (j < k)%nat →
        (∃ data, pending_reply (Nat.iter j (idle_poll url pi) w) data) ∧
        timed_out url start timeout (Nat.iter j (idle_poll url pi) w) = false) →
  get_task_loop (k + fuel) url start timeout pi w =
    get_task_loop fuel url start timeout pi (Nat.iter k (idle_poll url pi) w).
Proof.
  intros Hpi. revert w. induction k as [|k IH]; intros w Hidle; [done|].
  destruct (Hidle 0%nat) as [[data Hp] Ht]; [lia|]. simpl in Hp, Ht.
  replace (S k + fuel)%nat with (S (k + fuel)) by lia.
  rewrite (get_task_loop_idle _ _ _ _ _ _ data) by done.
  rewrite IH.
  - by rewrite Nat.iter_succ_r.
  - intros j Hj. specialize (Hidle (S j)). rewrite Nat.iter_succ_r in Hidle.
    apply Hidle. lia.
Qed.

Lemma idle_poll_eq url pi w :
  (0 <= pi)%Q →
  idle_poll url pi w =
    {| server := server w; latency := latency w; sent := S (sent w);
       clock := (clock w + latency w (sent w) + pi)%Q; stdin := stdin w;
       trace := (trace w ++ [EvRequest GET ApiTask url]) ++ [EvSleep pi] |}.
Proof.
  intros Hpi%Qltb_false_le. unfold idle_poll, polled, time_sleep.
  rewrite Hpi. unfold request. by destruct (server w (sent w)).
Qed.


Lemma decodable_task_fields r :
  decodable r → status_code r = 200 → ∃ x, task_fields r = Ret x.
Proof.
  intros Hd Hs. destruct Hd as (o & Hb & Hresp).
  { unfold accepted. by rewrite Hs. }
  unfold task_fields, r_json. rewrite Hb. simpl.
  assert (∃ od, py_or (py_or (get o "response") (JObj o)) (JObj ∅) = JObj od)
    as [od ->].
  { unfold py_or. destruct (truthy (get o "response")) eqn:Ht.
    - destruct Hresp as [o' Ho']; [done|]. rewrite Ho' in *. rewrite Ht.
      by eexists.
    - destruct (truthy (JObj o)); by eexists. }
  simpl. by eexists.
Qed.

(** Decoding a response is a pure computation: it needs no fuel. *)
Lemma get_method_fuel v k : get_method v k ≠ OutOfFuel.
Proof. by destruct v. Qed.

Lemma task_id_of_fuel r : task_id_of r ≠ OutOfFuel.
Proof.
  unfold task_id_of, r_json, mbind, result_mbind.
  destruct (json_body r) as [body|]; simpl; [|done].
  destruct (get_method body "response") as [resp| |] eqn:E; simpl; [|done|].
  - apply get_method_fuel.
  - by destruct (get_method_fuel _ _ E).
Qed.

Lemma task_fields_fuel r : task_fields r ≠ OutOfFuel.
Proof.
  unfold task_fields, r_json, mbind, result_mbind.
  destruct (json_body r) as [body|]; simpl; [|done].
  destruct (get_method body "response") as [resp| |] eqn:E; simpl; [|done|].
  2: by destruct (get_method_fuel _ _ E).
  destruct (get_method _ "progress") as [?| |] eqn:E1; simpl; [|done|].
  2: by destruct (get_method_fuel _ _ E1).
  destruct (get_method _ "isError") as [?| |] eqn:E2; simpl; [|done|].
  2: by destruct (get_method_fuel _ _ E2).
  destruct (get_method _ "failureReason") as [?| |] eqn:E3; simpl; [done..|].
  by destruct (get_method_fuel _ _ E3).
Qed.

Local Ltac returned :=
  left; eexists; split;
  [unfold mret, M_mret, M_ret; reflexivity|split; [done|]].

(** An iteration either returns after its poll or, the task being pending
    and the time not over, waits and goes round again. *)
Lemma get_task_loop_step fuel url start timeout pi w :
  (0 <= pi)%Q →
  (∃ res, get_task_loop (S fuel) url start timeout pi w = (res, polled url w) ∧
          res ≠ OutOfFuel ∧
          (∀ r, server w (sent w) = Responds r → decodable r →
                ∃ tr, res = Ret tr)) ∨
  (timed_out url start timeout w = false ∧
   get_task_loop (S fuel) url start timeout pi w =
     get_task_loop fuel url start timeout pi (idle_poll url pi w)).
Proof.
  intros Hpi. unfold timed_out, idle_poll, polled.
  simpl. rewrite bind_unfold. unfold request.
  destruct (server w (sent w)) as [r|e] eqn:Hr; simpl.
  2:{ returned. by intros r [=]. }
  destruct (status_code r =? 200) eqn:Hs; simpl.
  2:{ returned. intros ? _ _. by eexists. }
  apply Z.eqb_eq in Hs.
  rewrite bind_unfold. unfold lift.
  destruct (task_fields r) as [[[[data progress] is_error] failure]| |] eqn:Hf; simpl.
  3: by destruct (task_fields_fuel r).
  2: returned; intros ? [= <-] Hd;
     destruct (decodable_task_fields r Hd Hs) as [x Hx]; congruence.
  destruct (_ || _); [returned; intros; by eexists|].
  destruct (_ && _); [returned; intros; by eexists|].
  rewrite bind_unfold. unfold time_time. simpl.
  destruct (Qltb _ _); [returned; intros; by eexists|].
  right. split; [done|]. rewrite bind_unfold. unfold time_sleep.
  by apply Qltb_false_le in Hpi as ->.
Qed.

Lemma inject_nat_succ (n : nat) :
  (inject_Z (Z.of_nat (S n)) == inject_Z (Z.of_nat n) + 1)%Q.
Proof. rewrite Nat2Z.inj_succ. unfold Z.succ. by rewrite inject_Z_plus. Qed.

(** With [S f] iterations to go, the loop returns as soon as [f] waits are
    sure to exhaust the timeout. *)
Lemma get_task_loop_returns f url start timeout pi w :
  (0 < pi)%Q → (∀ n, (0 <= latency w n)%Q) →
  (inject_Z timeout < (clock w - start) + inject_Z (Z.of_nat f) * pi)%Q →
  ∃ res w', get_task_loop (S f) url start timeout pi w = (res, w') ∧
            res ≠ OutOfFuel ∧
            ((∀ n, ∃ r, server w n = Responds r ∧ decodable r) →
             ∃ tr, res = Ret tr).
Proof.
  intros Hpi. assert (0 <= pi)%Q as Hpi' by by apply Qlt_le_weak.
  revert w. induction f as [|f IH]; intros w Hlat Hlt.
  - destruct (get_task_loop_step 0 url start timeout pi w Hpi')
      as [(res & Heq & Hres & Hdec)|[Ht _]].
    + exists res, (polled url w). repeat split; [done..|].
      intros Hserver. destruct (Hserver (sent w)) as (r & Hr & Hd). eauto.
    + exfalso. apply Qltb_false_le in Ht. unfold polled, request in Ht.
      specialize (Hlat (sent w)).
      change (inject_Z (Z.of_nat 0)) with 0%Q in Hlt.
      revert Ht Hlt. generalize (inject_Z timeout). intros T Ht Hlt.
      destruct (server w (sent w)); simpl in Ht; lra.
  - destruct (get_task_loop_step (S f) url start timeout pi w Hpi')
      as [(res & Heq & Hres & Hdec)|[Ht Heq]].
    + exists res, (polled url w). repeat split; [done..|].
      intros Hserver. destruct (Hserver (sent w)) as (r & Hr & Hd). eauto.
    + rewrite Heq. rewrite idle_poll_eq by done.
      edestruct IH as (res & w' & -> & Hres & Hdec); [| |by eauto]; simpl; [done|].
      specialize (Hlat (sent w)). rewrite inject_nat_succ in Hlt.
      revert Hlt. generalize (inject_Z timeout), (inject_Z (Z.of_nat f)).
      intros T F Hlt. lra.
Qed.

Lemma poll_bound_enough timeout pi f :
  (0 < pi)%Q → (poll_bound timeout pi <= S f)%nat →
  (inject_Z timeout < inject_Z (Z.of_nat f) * pi)%Q.
Proof.
  intros Hpi Hf. unfold poll_bound in Hf.
  set (x := (inject_Z timeout / pi)%Q) in *.
  assert (x < inject_Z (Z.of_nat f))%Q as Hx.
  { eapply Qlt_le_trans; [apply (Qlt_floor x)|].
    rewrite <- Zle_Qle. lia. }
  assert (inject_Z timeout == x * pi)%Q as ->.
  { unfold x. field. intros H0. rewrite H0 in Hpi. by apply Qlt_irrefl in Hpi. }
  by apply Qmult_lt_compat_r.
Qed.

(** C2. The poller cannot loop forever.  Where [k] polls in a row found
    the task pending with the time not over, and the next poll finds it
    pending with the time over, [get_task] returns the timeout error with
    the task as last decoded, right after that poll and before any further
    wait.  And for every controller, once the interval is positive and no
    request takes negative time, [poll_bound] iterations are enough for
    [get_task] to return (with a result, when every reply is a decodable
    response): 122 for the default timeout of 300 and the default interval
    of 2.5. *)
Theorem get_task_times_out fuel base task_id timeout pi w :
  let url := base +:+ "/dna/intent/api/v1/task/" +:+ str task_id in
  (∀ k data,
     (k < fuel)%nat → (0 <= pi)%Q →
     (∀ j, (j < k)%nat →
           (∃ d, pending_reply (Nat.iter j (idle_poll url pi) w) d) ∧
           timed_out url (clock w) timeout (Nat.iter j (idle_poll url pi) w) = false) →
     pending_reply (Nat.iter k (idle_poll url pi) w) data →
     timed_out url (clock w) timeout (Nat.iter k (idle_poll url pi) w) = true →
     get_task fuel base task_id timeout pi w =
       (Ret (TaskError (JStr "task timeout") data),
        polled url (Nat.iter k (idle_poll url pi) w))) ∧
  ((0 < pi)%Q → (∀ n, (0 <= latency w n)%Q) →
   (poll_bound timeout pi <= fuel)%nat →
   (get_task fuel base task_id timeout pi w).1 ≠ OutOfFuel ∧
   ((∀ n, ∃ r, server w n = Responds r ∧ decodable r) →
    ∃ tr, (get_task fuel base task_id timeout pi w).1 = Ret tr)) ∧
  default_timeout = 300 ∧
  poll_bound default_timeout default_poll_interval = 122%nat.
Proof.
  intros url. split; [|split; [|done]].
  - intros k data Hk Hpi Hidle Hp Ht. unfold get_task.
    rewrite bind_unfold. unfold time_time. fold url.
    replace fuel with (k + S (fuel - S k))%nat by lia.
    rewrite get_task_loop_skip by done.
    by apply get_task_loop_timeout.
  - intros Hpi Hlat Hfuel. unfold get_task.
    rewrite bind_unfold. unfold time_time. fold url.
    destruct fuel as [|f]; [unfold poll_bound in Hfuel; lia|].
    destruct (get_task_loop_returns f url (clock w) timeout pi w)
      as (res & w' & -> & Hres & Hdec); [done..| |by split].
    pose proof (poll_bound_enough timeout pi f Hpi Hfuel). lra.
Qed.

(** C3. A poll whose decoded task carries a truthy [isError] or a truthy
    [failureReason] ends [get_task] on that very poll, the first one
    included, whatever the [progress] of the task says: the result is the
    error, with the [failureReason] itself when there is one, and the
    decoded task as [raw]. *)
Theorem get_task_fails_on_error_reply
    fuel base task_id timeout pi w k r data progress is_error failure :
  let url := base +:+ "/dna/intent/api/v1/task/" +:+ str task_id in
  let wk := Nat.iter k (idle_poll url pi) w in
  (k < fuel)%nat → (0 <= pi)%Q →
  (∀ j, (j < k)%nat →
        (∃ d, pending_reply (Nat.iter j (idle_poll url pi) w) d) ∧
        timed_out url (clock w) timeout (Nat.iter j (idle_poll url pi) w) = false) →
  server wk (sent wk) = Responds r → status_code r = 200 →
  task_fields r = Ret (data, progress, is_error, failure) →
  truthy is_error = true ∨ truthy failure = true →
  ∃ error,
    get_task fuel base task_id timeout pi w =
      (Ret (TaskError error data), polled url wk) ∧
    (truthy failure = true → error = failure) ∧
    (truthy failure = false → error = JStr "task reported error").
Proof.
  intros url wk Hk Hpi Hidle Hr Hs Hf He.
  exists (py_or failure (JStr "task reported error")). split.
  - unfold get_task. rewrite bind_unfold. unfold time_time. fold url.
    replace fuel with (k + S (fuel - S k))%nat by lia.
    rewrite get_task_loop_skip by done. fold wk.
    eapply get_task_loop_failed; [done..|].
    destruct He as [-> | ->]; [done|by rewrite orb_true_r].
  - unfold py_or. split; by intros ->.
Qed.

(** ** Deletion protocol *)

Lemma delete_image_loop_refused base path paths tried last w :
  refused w (sent w) →
  delete_image_loop base (path :: paths) tried last w =
    delete_image_loop base paths (tried ++ [(path, status_at w (sent w))])
      (text_at w (sent w))
      (request DELETE ApiDeleteImage (base +:+ path) w).2.
Proof.
  intros (r & Hr & Hs). unfold status_at, text_at. simpl.
  rewrite bind_unfold. unfold request. rewrite Hr.
  unfold success_status in Hs. apply orb_false_elim in Hs as [-> ->]. done.
Qed.

Lemma delete_image_loop_success base path paths tried last w r tid :
  server w (sent w) = Responds r → succeeded_with r tid →
  delete_image_loop base (path :: paths) tried last w =
    (Ret (DeleteOk tid path), (request DELETE ApiDeleteImage (base +:+ path) w).2).
Proof.
  intros Hr Hs. simpl. rewrite bind_unfold. unfold request. rewrite Hr.
  destruct Hs as [[-> Ht]|[Hs ->]].
  - rewrite bind_unfold. unfold lift. by rewrite Ht.
  - rewrite Hs. done.
Qed.

Lemma request_sent m a url w : sent (request m a url w).2 = S (sent w).
Proof. unfold request. by destruct (server w (sent w)). Qed.

Lemma request_server m a url w : server (request m a url w).2 = server w.
Proof. unfold request. by destruct (server w (sent w)). Qed.

Lemma request_trace m a url w :
  trace (request m a url w).2 = trace w ++ [EvRequest m a url].
Proof. unfold request. by destruct (server w (sent w)). Qed.

Lemma status_at_request m a url w n :
  status_at (request m a url w).2 n = status_at w n.
Proof. unfold status_at. by rewrite request_server. Qed.

Lemma text_at_request m a url w n :
  text_at (request m a url w).2 n = text_at w n.
Proof. unfold text_at. by rewrite request_server. Qed.

Lemma attempts_request m a url w n paths :
  attempts (request m a url w).2 n paths = attempts w n paths.
Proof.
  revert n. induction paths as [|p paths IH]; intros n; simpl; [done|].
  by rewrite IH, status_at_request.
Qed.

Lemma last_text_of_request m a url w n paths last :
  last_text_of (request m a url w).2 n paths last = last_text_of w n paths last.
Proof.
  revert n last. induction paths as [|p paths IH]; intros n last; simpl; [done|].
  by rewrite IH, text_at_request.
Qed.

(** The loop stops at the first path that succeeds. *)
Lemma delete_image_loop_first_success base paths tried last w k path r tid :
  paths !! k = Some path →
  (∀ j, (j < k)%nat → refused w (sent w + j)) →
  server w (sent w + k) = Responds r → succeeded_with r tid →
  ∃ w', delete_image_loop base paths tried last w = (Ret (DeleteOk tid path), w') ∧
        sent w' = (sent w + S k)%nat ∧
        trace w' = trace w ++ delete_requests base (take (S k) paths).
Proof.
  revert paths tried last w.
  induction k as [|k IH]; intros [|p paths] tried last w Hpath Href Hr Hs;
    try done; simpl in Hpath.
  - injection Hpath as ->. rewrite Nat.add_0_r in Hr.
    eexists. split; [by eapply delete_image_loop_success|].
    rewrite request_sent, request_trace. split; [lia|done].
  - rewrite delete_image_loop_refused.
    2:{ specialize (Href 0%nat). rewrite Nat.add_0_r in Href. apply Href. lia. }
    edestruct (IH paths) as (w' & -> & Hsent & Htrace); [done| | |done|].
    + intros j Hj. unfold refused. rewrite request_server, request_sent.
      replace (S (sent w) + j)%nat with (sent w + S j)%nat by lia.
      apply Href. lia.
    + rewrite request_server, request_sent.
      by replace (S (sent w) + k)%nat with (sent w + S k)%nat by lia.
    + eexists. split; [done|]. rewrite Hsent, Htrace, request_sent, request_trace.
      split; [lia|]. by rewrite <- app_assoc.
Qed.

(** The loop tries every path when none succeeds. *)
Lemma delete_image_loop_exhausted base paths tried last w :
  (∀ j, (j < length paths)%nat → refused w (sent w + j)) →
  ∃ w', delete_image_loop base paths tried last w =
          (Ret (DeleteFailed (tried ++ attempts w (sent w) paths)
                             (last_text_of w (sent w) paths last)), w') ∧
        sent w' = (sent w + length paths)%nat ∧
        trace w' = trace w ++ delete_requests base paths.
Proof.
  revert tried last w.
  induction paths as [|p paths IH]; intros tried last w Href.
  - exists w. simpl. by rewrite !app_nil_r, Nat.add_0_r.
  - rewrite delete_image_loop_refused.
    2:{ specialize (Href 0%nat). rewrite Nat.add_0_r in Href. apply Href.
        simpl; lia. }
    edestruct (IH (tried ++ [(p, status_at w (sent w))]) (text_at w (sent w)))
      as (w' & -> & Hsent & Htrace).
    + intros j Hj. unfold refused. rewrite request_server, request_sent.
      replace (S (sent w) + j)%nat with (sent w + S j)%nat by lia.
      apply Href. simpl; lia.
    + eexists. rewrite request_sent, attempts_request, last_text_of_request.
      rewrite <- app_assoc. split; [done|].
      rewrite Hsent, Htrace, request_sent, request_trace.
      split; [simpl; lia|]. by rewrite <- app_assoc.
Qed.

(** C1. [delete_image] stops at the first path that succeeds.  When the
    paths before the [k]-th (counted from 0) are refused and the [k]-th
    succeeds, the result is a success that names that path and carries the
    task handle, after exactly [k + 1] DELETE requests: those for the
    paths up to the [k]-th, in order, and none for a later path.  When
    every path is refused, the result is a failure that carries the
    ordered list of (path, status) attempts, one per path. *)
Theorem delete_image_short_circuits base image_id w :
  let paths := delete_paths image_id in
  (∀ k path r tid,
     paths !! k = Some path →
     (∀ j, (j < k)%nat → refused w (sent w + j)) →
     server w (sent w + k) = Responds r → succeeded_with r tid →
     ∃ w', delete_image base image_id w = (Ret (DeleteOk tid path), w') ∧
           sent w' = (sent w + S k)%nat ∧
           trace w' = trace w ++ delete_requests base (take (S k) paths)) ∧
  ((∀ j, (j < length paths)%nat → refused w (sent w + j)) →
   ∃ w', delete_image base image_id w =
           (Ret (DeleteFailed (attempts w (sent w) paths)
                              (last_text_of w (sent w) paths "")), w') ∧
         sent w' = (sent w + length paths)%nat ∧
         trace w' = trace w ++ delete_requests base paths).
Proof.
  intros paths. split.
  - intros k path r tid Hpath Href Hr Hs.
    by eapply delete_image_loop_first_success.
  - intros Href. by apply (delete_image_loop_exhausted base paths []).
Qed.

(** ** Orchestrator: what the loop body emits *)


Lemma emits_delete_image_loop (P : event → Prop) base paths tried last :
  (∀ u, P (EvRequest DELETE ApiDeleteImage u)) →
  emits P (delete_image_loop base paths tried last).
Proof.
  intros Hreq. revert tried last.
  induction paths as [|p paths IH]; intros tried last; simpl.
  - apply emits_ret.
  - apply emits_bind; [by apply emits_request|]. intros r.
    destruct (accepted _).
    + apply emits_bind; [apply emits_lift|]. intros t. apply emits_ret.
    + destruct (_ =? 204); [apply emits_ret|]. apply IH.
Qed.


Lemma emits_delete_and_wait (P : event → Prop) base fuel r :
  (∀ m, P (EvLog m)) → (∀ u, P (EvRequest DELETE ApiDeleteImage u)) →
  (∀ u, P (EvRequest GET ApiTask u)) → (∀ d, P (EvSleep d)) →
  emits P (delete_and_wait base fuel r).
Proof.
  intros Hlog Hdel Hget Hsleep. unfold delete_and_wait.
  apply emits_bind; [by apply emits_log|]. intros _.
  apply emits_bind; [by apply emits_delete_image_loop|].
  intros [task_id path|tried last_text]; [|apply emits_ret].
  destruct (truthy task_id).
  - apply emits_bind; [by apply emits_get_task|].
    intros [e raw|data]; [apply emits_ret|].
    apply emits_bind; [by apply emits_log|]. intros _. apply emits_ret.
  - apply emits_bind; [by apply emits_log|]. intros _. apply emits_ret.
Qed.



(** ** Orchestrator: runs against a reliable controller *)















(** ** Orchestrator: the claims *)

Lemma bind_trace_prefix {A B} (m : M A) (f : A → M B) w pre :
  (∃ evs, trace (m w).2 = trace w ++ pre ++ evs) →
  (∀ a, emits (λ _, True) (f a)) →
  ∃ evs, trace ((m ≫= f) w).2 = trace w ++ pre ++ evs.
Proof.
  intros [evs Hm] Hf. rewrite bind_unfold.
  destruct (m w) as [[a|e|] w']; simpl in *; [|by exists evs..].
  destruct (Hf a w') as (_ & _ & evs' & -> & _). rewrite Hm.
  exists (evs ++ evs'). by rewrite <- !app_assoc.
Qed.

Lemma delete_image_loop_starts base path paths tried last w :
  ∃ evs,
    trace (delete_image_loop base (path :: paths) tried last w).2 =
      trace w ++ [EvRequest DELETE ApiDeleteImage (base +:+ path)] ++ evs.
Proof.
  cbn [delete_image_loop]. apply bind_trace_prefix.
  - exists []. by rewrite request_trace.
  - intros r0. destruct (accepted _).
    + apply emits_bind; [apply emits_lift|]. intros t. apply emits_ret.
    + destruct (_ =? 204); [apply emits_ret|].
      by apply emits_delete_image_loop.
Qed.

(** [delete_and_wait] begins with its log line and the DELETE request for
    the first candidate path. *)
Lemma delete_and_wait_starts base fuel r w :
  ∃ evs,
    trace (delete_and_wait base fuel r w).2 =
      trace w ++
      [EvLog ("Deleting image " +:+ str (imageUuid r) +:+ " (" +:+ str (row_name r)
              +:+ " v" +:+ str (row_version r) +:+ ") ...");
       EvRequest DELETE ApiDeleteImage
         (base +:+ "/dna/intent/api/v1/image/importation/" +:+ str (imageUuid r))]
      ++ evs.
Proof.
  unfold delete_and_wait. rewrite bind_unfold. unfold log at 1.
  match goal with
  | |- ∃ evs, trace ((?m ≫= ?f) ?w1).2 = _ =>
      destruct (bind_trace_prefix m f w1
                  [EvRequest DELETE ApiDeleteImage
                     (base +:+ "/dna/intent/api/v1/image/importation/"
                      +:+ str (imageUuid r))]) as [evs Hevs]
  end.
  - apply delete_image_loop_starts.
  - intros [task_id path|tried last_text]; [|apply emits_ret].
    destruct (truthy task_id).
    + apply emits_bind; [by apply emits_get_task|].
      intros [e raw|data]; [apply emits_ret|].
      apply emits_bind; [by apply emits_log|]. intros _. apply emits_ret.
    + apply emits_bind; [by apply emits_log|]. intros _. apply emits_ret.
  - exists evs. rewrite Hevs. simpl. by rewrite <- !app_assoc.
Qed.

(** C4. For a golden row with an id, when the three removal parameters
    are supplied: if the tag removal is accepted with a task handle and
    polling that task ends in an error (failure or timeout), the row is
    filed as failed with the reason "remove_golden failed: ..." and no
    DELETE of the image is requested; if the tag removal is refused
    outright (a status other than 200, 202, 204), a warning is logged and
    the deletion goes ahead, starting with the DELETE request for the
    first candidate path. *)
Theorem golden_removal_failure_aborts_item
    cli base fuel r w site_id family_id role resp :
  let url := golden_url base site_id family_id role (imageUuid r) in
  let w1 := (request DELETE ApiRemoveGolden url
               (emit (EvLog ("Removing golden tag for image "
                              +:+ str (imageUuid r) +:+ " ...")) w)).2 in
  row_golden r = true → truthy (imageUuid r) = true →
  given (arg_site_id cli) = Some site_id →
  given (arg_device_family_identifier cli) = Some family_id →
  given (arg_device_role cli) = Some role →
  server w (sent w) = Responds resp →
  (∀ tid e raw w2,
     accepted (status_code resp) = true → task_id_of resp = Ret tid →
     truthy tid = true →
     get_task fuel base tid default_timeout default_poll_interval w1
       = (Ret (TaskError e raw), w2) →
     delete_row cli base fuel r w
       = (Ret (Failed r ("remove_golden failed: " +:+ str e)), w2) ∧
     ∃ evs, trace w2 = trace w ++ evs ∧
            Forall (λ ev, ¬ is_request_of ApiDeleteImage ev) evs) ∧
  (success_status (status_code resp) = false →
   let w' := emit (EvLog ("Warning: remove_golden failed "
                          +:+ str_int (status_code resp) +:+ ": " +:+ text resp)) w1 in
   delete_row cli base fuel r w = delete_and_wait base fuel r w' ∧
   ∃ evs,
     trace (delete_row cli base fuel r w).2 =
       trace w ++
       [EvLog ("Removing golden tag for image " +:+ str (imageUuid r) +:+ " ...");
        EvRequest DELETE ApiRemoveGolden url;
        EvLog ("Warning: remove_golden failed "
               +:+ str_int (status_code resp) +:+ ": " +:+ text resp);
        EvLog ("Deleting image " +:+ str (imageUuid r) +:+ " (" +:+ str (row_name r)
               +:+ " v" +:+ str (row_version r) +:+ ") ...");
        EvRequest DELETE ApiDeleteImage
          (base +:+ "/dna/intent/api/v1/image/importation/" +:+ str (imageUuid r))]
       ++ evs).
Proof.
  intros url w1 Hg Hid Hsite Hfam Hrole Hresp. unfold golden_url in url.
  assert (Hw1 : request DELETE ApiRemoveGolden url
                  (emit (EvLog ("Removing golden tag for image "
                                 +:+ str (imageUuid r) +:+ " ...")) w)
                = (Ret resp, w1)).
  { unfold w1, request. simpl. by rewrite Hresp. }
  split.
  - intros tid e raw w2 Hacc Htid Htruthy Hpoll.
    split.
    + unfold delete_row. rewrite Hid. simpl. rewrite bind_unfold.
      unfold remove_golden_first. rewrite Hg, Hsite, Hfam, Hrole.
      rewrite bind_unfold. unfold log at 1. rewrite bind_unfold.
      unfold remove_golden. fold url. rewrite bind_unfold, Hw1, Hacc.
      unfold lift. rewrite Htid, Htruthy. rewrite bind_unfold, Hpoll. done.
    + pose proof (emits_get_task (λ ev, ¬ is_request_of ApiDeleteImage ev)
                    fuel base tid default_timeout default_poll_interval) as Hem.
      destruct (Hem (λ _, id) id w1) as (_ & _ & evs & Hevs & Hall).
      rewrite Hpoll in Hevs. simpl in Hevs. rewrite Hevs.
      unfold w1. rewrite request_trace. simpl. rewrite <- !app_assoc.
      eexists. split; [done|]. repeat constructor; [by intros []..|done].
  - intros Hrefused w'.
    unfold success_status in Hrefused. apply orb_false_elim in Hrefused as [Hacc H204].
    assert (delete_row cli base fuel r w = delete_and_wait base fuel r w') as Heq.
    { unfold delete_row. rewrite Hid. simpl. rewrite bind_unfold.
      unfold remove_golden_first. rewrite Hg, Hsite, Hfam, Hrole.
      rewrite bind_unfold. unfold log at 1. rewrite bind_unfold.
      unfold remove_golden. fold url. rewrite bind_unfold, Hw1, Hacc, H204.
      rewrite bind_unfold. unfold log at 1. done. }
    split; [done|]. rewrite Heq.
    destruct (delete_and_wait_starts base fuel r w') as [evs Hevs].
    exists evs. rewrite Hevs. unfold w', w1. simpl. rewrite request_trace. simpl.
    by rewrite <- !app_assoc.
Qed.








Lemma post_ret {A} (Q : A → Prop) (a : A) : Q a → post Q (mret a).
Proof. by intros HQ w a' w' [= <- _]. Qed.

Lemma post_bind {A B} (Q : A → Prop) (R : B → Prop) (m : M A) (f : A → M B) :
  post Q m → (∀ a, Q a → post R (f a)) → post R (m ≫= f).
Proof.
  intros Hm Hf w b w'. rewrite bind_unfold.
  destruct (m w) as [[a|e|] w1] eqn:E; [|done..].
  intros Hb. eapply Hf; [|done]. by eapply Hm.
Qed.

Lemma post_any {A} (m : M A) : post (λ _, True) m.
Proof. by intros w a w' _. Qed.






Lemma get_insert_ne (img : record) (k k' : string) (v : json) :
  k ≠ k' → get (<[k := v]> img) k' = get img k'.
Proof. intros Hne. unfold get. by rewrite lookup_insert_ne. Qed.

(** The matcher does not look at the id of an entry. *)
Lemma _match_ignores_id (c : filters) (img : record) (id : json) :
  _match c (<["imageUuid" := id]> img) = _match c img.
Proof.
  unfold _match, is_golden_of, created_of, in_use.
  by rewrite !get_insert_ne.
Qed.

(** C9, as amended.  The matcher does not look at the id: an entry
    without one is selected exactly when it would be with an id.  But an
    entry without a truthy id under every alias is not deleted: the loop
    body files its row as failed with the reason "missing imageUuid" and
    leaves the world as it is, so that no request is issued for it. *)
Theorem entry_without_id_is_not_deleted (c : filters) cli base fuel img w :
  lacks_id img →
  (∀ id, _match c (<["imageUuid" := id]> img) = _match c img) ∧
  delete_row cli base fuel (img_row img) w =
    (Ret (Failed (img_row img) "missing imageUuid"), w).
Proof.
  intros (H1 & H2 & H3). split; [intros id; apply _match_ignores_id|].
  unfold delete_row.
  assert (truthy (imageUuid (img_row img)) = false) as ->; [|done].
  simpl. unfold py_or. by rewrite H1, H2.
Qed.

(** C10.  An entry with no truthy golden alias is not golden: a golden
    filter set to false does not change the decision of the matcher, a
    golden filter set to true rejects the entry, its row has
    [golden = False], and the loop body skips the removal of the golden
    tag: it issues no request of [remove_golden]. *)
Theorem unflagged_entry_is_not_golden (c : filters) cli base fuel img w :
  not_flagged_golden img →
  (golden (args c) = Some false → _match c img = _match (with_golden None c) img) ∧
  (golden (args c) = Some true →
   _match c img ≠ Ret true ∧ (∀ d, normalize img = Ret d → _match c img = Ret false)) ∧
  row_golden (img_row img) = false ∧
  remove_golden_first cli base fuel (img_row img) w = (Ret None, w) ∧
  ∃ evs, trace (delete_row cli base fuel (img_row img) w).2 = trace w ++ evs ∧
         Forall (λ ev, ¬ is_request_of ApiRemoveGolden ev) evs.
Proof.
  intros Hg%not_flagged_is_not_golden.
  assert (remove_golden_first cli base fuel (img_row img) w = (Ret None, w)) as Hskip.
  { unfold remove_golden_first. simpl. by rewrite Hg. }
  split; [by apply golden_false_filter_is_transparent|].
  split; [by apply golden_true_filter_rejects|].
  split; [done|]. split; [done|].
  unfold delete_row. destruct (negb _).
  { exists []. by rewrite app_nil_r. }
  rewrite bind_unfold, Hskip.
  destruct (emits_delete_and_wait (λ ev, ¬ is_request_of ApiRemoveGolden ev)
              base fuel (img_row img)) with (w := w) as (_ & _ & evs & Hevs & Hall);
    [by intros ? []..|].
  by exists evs.
Qed.

End Properties.

(** * The claims on concrete runs *)

(** C1 on a run where the first path answers 404 and the second 202 with
    a task handle: two DELETE requests, the second path reported. *)
Lemma delete_image_short_circuits_witness :
  ∃ w', delete_image (RT := ascii_runtime) "https://cc" (JStr "u1") w_fallback =
          (Ret (DeleteOk (JStr "t9") "/dna/intent/api/v1/image/u1"), w') ∧
        sent w' = 2%nat ∧
        trace w' =
          [EvRequest DELETE ApiDeleteImage
             "https://cc/dna/intent/api/v1/image/importation/u1";
           EvRequest DELETE ApiDeleteImage "https://cc/dna/intent/api/v1/image/u1"].
Proof.
  apply (proj1 (delete_image_short_circuits (RT := ascii_runtime)
                  "https://cc" (JStr "u1") w_fallback)
           1%nat "/dna/intent/api/v1/image/u1" accepted_task (JStr "t9")).
  - reflexivity.
  - intros [|j] Hj; [|lia]. exists not_found. split; reflexivity.
  - reflexivity.
  - left. split; reflexivity.
Defined.

Lemma w_running_pending (j : nat) :
  pending_reply (RT := ascii_runtime)
    (Nat.iter j (idle_poll task_url (5 # 2)) w_running) (JObj running_task).
Proof.
  exists task_running, (JStr "running"), JNull, JNull.
  assert (server (Nat.iter j (idle_poll task_url (5 # 2)) w_running)
          = λ _, Responds task_running) as ->.
  { induction j as [|j IH]; [reflexivity|]. simpl. unfold polled.
    rewrite request_server. exact IH. }
  repeat split; reflexivity.
Defined.

(** C2 on a task that stays "running" while each poll takes a second:
    with a timeout of 10 and an interval of 2.5 the fourth poll is the
    last. *)
Lemma get_task_times_out_witness :
  get_task (RT := ascii_runtime) 122 "https://cc" (JStr "t9") 10 (5 # 2) w_running =
    (Ret (TaskError (JStr "task timeout") (JObj running_task)),
     polled task_url (Nat.iter 3 (idle_poll task_url (5 # 2)) w_running)).
Proof.
  apply (proj1 (get_task_times_out (RT := ascii_runtime)
                  122 "https://cc" (JStr "t9") 10 (5 # 2) w_running)
           3%nat (JObj running_task)).
  - lia.
  - discriminate.
  - intros j Hj. split; [exists (JObj running_task); apply w_running_pending|].
    destruct j as [|[|[|j]]]; [reflexivity..|lia].
  - apply w_running_pending.
  - reflexivity.
Defined.

(** C3 on a first poll that carries a failure reason next to a progress
    text with completion keywords. *)
Lemma get_task_fails_on_error_reply_witness :
  ∃ error,
    get_task (RT := ascii_runtime) 122 "https://cc" (JStr "t9") 300 (5 # 2) w_failed =
      (Ret (TaskError error (JObj failed_task)), polled task_url w_failed) ∧
    (truthy (JStr "boom") = true → error = JStr "boom") ∧
    (truthy (JStr "boom") = false → error = JStr "task reported error").
Proof.
  apply (get_task_fails_on_error_reply (RT := ascii_runtime)
           122 "https://cc" (JStr "t9") 300 (5 # 2) w_failed 0 task_failed
           (JObj failed_task) (JStr "Deletion completed") JNull (JStr "boom")).
  - lia.
  - discriminate.
  - intros j Hj. lia.
  - reflexivity.
  - reflexivity.
  - reflexivity.
  - right. reflexivity.
Defined.


(** C4 on a golden row whose tag removal is accepted with the task "t9",
    which then fails with "boom". *)
Lemma golden_removal_failure_aborts_item_witness :
  let run := delete_row (RT := ascii_runtime) cli_yes "https://cc" 122
               row_golden_ex w_golden_fails in
  run.1 = Ret (Failed row_golden_ex "remove_golden failed: boom") ∧
  ∃ evs, trace run.2 = trace w_golden_fails ++ evs ∧
         Forall (λ ev, ¬ is_request_of ApiDeleteImage ev) evs.
Proof.
  set (w1 := (request DELETE ApiRemoveGolden
                (golden_url (RT := ascii_runtime)
                   "https://cc" "-1" "277696480" "ALL" (JStr "u2"))
                (emit (EvLog "Removing golden tag for image u2 ...")
                   w_golden_fails)).2).
  set (w2 := (get_task (RT := ascii_runtime) 122 "https://cc" (JStr "t9")
                default_timeout default_poll_interval w1).2).
  destruct (proj1 (golden_removal_failure_aborts_item (RT := ascii_runtime)
                     cli_yes "https://cc" 122 row_golden_ex w_golden_fails
                     "-1" "277696480" "ALL" accepted_task
                     eq_refl eq_refl eq_refl eq_refl eq_refl eq_refl)
              (JStr "t9") (JStr "boom") (JObj failed_task) w2
              eq_refl eq_refl eq_refl eq_refl) as [Heq Hevs].
  intros run. unfold run. rewrite Heq. split; [reflexivity|exact Hevs].
Defined.




(** C7 on an entry without a creation time and a threshold of 30 days. *)
Lemma age_filter_spares_undated_records_witness :
  _match (RT := ascii_runtime) month_old img_a =
    _match (RT := ascii_runtime) any_age img_a.
Proof.
  apply (proj1 (age_filter_spares_undated_records (RT := ascii_runtime)
                  no_filter 30 1700000000000000 img_a month_old any_age
                  eq_refl eq_refl)).
  reflexivity.
Defined.

(** C8 on the family filter "cat9k" and an entry of the family ISR4K, with
    the predicates taken in the reverse order. *)
Lemma match_is_order_independent_conjunction_witness :
  _match (RT := ascii_runtime) cat9k_filter img_no_id =
    match_conj (RT := ascii_runtime)
      (reverse (predicates cat9k_filter)) img_no_id ∧
  match_conj (RT := ascii_runtime)
    (reverse (predicates cat9k_filter)) img_no_id = Ret false.
Proof.
  destruct (match_is_order_independent_conjunction (RT := ascii_runtime)
              cat9k_filter img_no_id (reverse (predicates cat9k_filter))
              (reverse_Permutation _)) as [H1 H2].
  split; [exact H1|].
  eapply (H2 "cat9k"); reflexivity.
Defined.

Lemma img_no_id_lacks_id : lacks_id img_no_id.
Proof. repeat split. Defined.

(** C9 as stated fails: an entry without an id passes the filter and is a
    row of the candidate table. *)
Lemma entry_without_id_is_selected :
  lacks_id img_no_id ∧
  select (RT := ascii_runtime) match_all [img_a; img_no_id] =
    Ret [img_a; img_no_id] ∧
  candidates (RT := ascii_runtime) match_all [img_a; img_no_id] =
    Ret [row_a; img_row img_no_id].
Proof. split; [exact img_no_id_lacks_id|]. split; reflexivity. Qed.

(** C9, as amended, on that entry. *)
Lemma entry_without_id_is_not_deleted_witness :
  delete_row (RT := ascii_runtime) cli_all "https://cc" 122
    (img_row img_no_id) w_no_content =
    (Ret (Failed (img_row img_no_id) "missing imageUuid"), w_no_content).
Proof.
  apply (entry_without_id_is_not_deleted (RT := ascii_runtime)
           match_all cli_all "https://cc" 122 img_no_id w_no_content).
  exact img_no_id_lacks_id.
Defined.

(** C10 on an entry that carries none of the golden aliases. *)
Lemma unflagged_entry_is_not_golden_witness :
  _match (RT := ascii_runtime) not_golden_only img_a =
    _match (RT := ascii_runtime) (with_golden None not_golden_only) img_a ∧
  row_golden (img_row img_a) = false ∧
  remove_golden_first (RT := ascii_runtime) cli_yes "https://cc" 122
    (img_row img_a) w_no_content = (Ret None, w_no_content).
Proof.
  destruct (unflagged_entry_is_not_golden (RT := ascii_runtime)
              not_golden_only cli_yes "https://cc" 122 img_a w_no_content)
    as (H1 & _ & H3 & H4 & _).
  - repeat split.
  - split; [apply H1; reflexivity|]. split; [exact H3|exact H4].
Defined.

(** * Further properties *)

Section MoreProperties.
Context `{RT : PyRuntime}.

(** ** Filter engine *)

Lemma lower_method_text (v : json) :
  (is_text v = true → ∃ s, lower_method v = Ret s) ∧
  (is_text v = false → lower_method v = Raise AttributeError).
Proof. destruct v; simpl; split; try done; by eexists. Qed.

Lemma normalize_well_typed (img : record) :
  (well_typed img = true → ∃ d, normalize img = Ret d) ∧
  (well_typed img = false → normalize img = Raise AttributeError).
Proof.
  unfold well_typed, normalize, mbind, result_mbind.
  destruct (lower_method_text
              (py_or (get img "family") (py_or (get img "familyName") (JStr ""))))
    as [Hf1 Hf2].
  destruct (lower_method_text
              (py_or (get img "name") (py_or (get img "imageName") (JStr ""))))
    as [Hn1 Hn2].
  destruct (lower_method_text
              (py_or (get img "version") (py_or (get img "softwareVersion") (JStr ""))))
    as [Hv1 Hv2].
  destruct (lower_method_text
              (py_or (get img "imageType") (py_or (get img "type") (JStr ""))))
    as [Ht1 Ht2].
  destruct (is_text (py_or (get img "family") _)); simpl.
  2:{ split; [done|]. intros _. by rewrite Hf2. }
  destruct Hf1 as [f ->]; [done|]. simpl.
  destruct (is_text (py_or (get img "name") _)); simpl.
  2:{ split; [done|]. intros _. by rewrite Hn2. }
  destruct Hn1 as [n ->]; [done|]. simpl.
  destruct (is_text (py_or (get img "version") _)); simpl.
  2:{ split; [done|]. intros _. by rewrite Hv2. }
  destruct Hv1 as [v ->]; [done|]. simpl.
  destruct (is_text (py_or (get img "imageType") _)); simpl.
  2:{ split; [done|]. intros _. by rewrite Ht2. }
  destruct Ht1 as [t ->]; [done|]. simpl.
  split; [|done]. intros _. by eexists.
Qed.

Lemma _match_by_type (c : filters) (img : record) :
  (well_typed img = true → ∃ b, _match c img = Ret b) ∧
  (well_typed img = false → _match c img = Raise AttributeError).
Proof.
  rewrite _match_conj. unfold match_conj.
  destruct (normalize_well_typed img) as [H1 H2]. split.
  - intros [d ->]%H1. by eexists.
  - intros ->%H2. done.
Qed.

(** The matcher fails on an entry exactly when one of its text fields is a
    truthy value that is not a string; the failure is the
    [AttributeError] of [.lower()], whatever the filters are. *)
Theorem _match_raises_on_non_text (c : filters) (img : record) :
  (well_typed img = true → ∃ b, _match c img = Ret b) ∧
  (well_typed img = false → _match c img = Raise AttributeError).
Proof. apply _match_by_type. Qed.

(** Arguments that are all absent or falsy compile to a matcher that
    accepts every entry whose text fields are strings. *)
Theorem empty_filter_matches_everything (a : Namespace) (utcnow : datetime) :
  no_criteria a →
  ∃ c, compile_filters a utcnow = Ret c ∧
       ∀ img, well_typed img = true → _match c img = Ret true.
Proof.
  intros (Hf & Hn & Hnr & Hv & Hvr & Ht & Hg & Ho & Hu).
  assert (∃ c, compile_filters a utcnow = Ret c) as [c Hc].
  { unfold compile_filters, compile_opt, mbind, result_mbind.
    rewrite Hvr, Hnr. simpl. destruct Ho as [-> | ->]; by eexists. }
  exists c. split; [done|]. intros img [d Hd]%normalize_well_typed.
  apply compile_filters_inv in Hc as (Ha & _ & Hvc & Hnc & Hoc).
  unfold compile_opt in Hvc, Hnc. rewrite Hvr in Hvc. rewrite Hnr in Hnc.
  injection Hvc as Hvc. injection Hnc as Hnc.
  assert (older_than c = None) as Hot.
  { rewrite Hoc. by destruct Ho as [-> | ->]. }
  rewrite _match_conj, (match_conj_normalized _ _ _ Hd). simpl.
  unfold p_family, p_name_contains, p_name_regex, p_version, p_version_regex,
    p_type, p_golden, p_age, p_unused.
  by rewrite Ha, Hf, Hn, Hv, Ht, Hg, Hu, Hot, <- Hvc, <- Hnc.
Qed.

(** [--older-than-days 0] sets no age filter: the matcher decides every
    entry as it does without the option. *)
Theorem zero_days_is_no_age_filter
    (a : Namespace) (utcnow : datetime) (c c0 : filters) (img : record) :
  compile_filters (with_older_than_days (Some 0) a) utcnow = Ret c →
  compile_filters (with_older_than_days None a) utcnow = Ret c0 →
  _match c img = _match c0 img.
Proof.
  intros (Ha & Hnow & Hv & Hn & Hot)%compile_filters_inv
         (Ha0 & Hnow0 & Hv0 & Hn0 & Hot0)%compile_filters_inv.
  simpl in *. rewrite Hv in Hv0. rewrite Hn in Hn0.
  injection Hv0 as Hv0. injection Hn0 as Hn0.
  rewrite !_match_conj. unfold match_conj.
  destruct (normalize img) as [d| |]; simpl; [|done..].
  unfold p_family, p_name_contains, p_name_regex, p_version, p_version_regex,
    p_type, p_golden, p_unused, p_age.
  by rewrite Ha, Ha0, <- Hv0, <- Hn0, Hot, Hot0.
Qed.

Lemma normalize_inUse (img : record) (d : ImageRecord) :
  normalize img = Ret d → ir_inUse d = in_use img.
Proof.
  unfold normalize, mbind, result_mbind.
  destruct (lower_method (py_or (get img "family") _)); simpl; [|done..].
  destruct (lower_method (py_or (get img "name") _)); simpl; [|done..].
  destruct (lower_method (py_or (get img "version") _)); simpl; [|done..].
  destruct (lower_method (py_or (get img "imageType") _)); simpl; [|done..].
  intros [= Hd]. by rewrite <- Hd.
Qed.

(** The [unused_only] check excludes an entry only for a positive usage
    count: when the count (the first truthy alias, else 0) cannot be
    converted by [int] or is not positive, the matcher decides the entry
    as it does without the option; when it is positive, the matcher does
    not accept the entry. *)
Theorem unused_only_excludes_positive_counts (c : filters) (img : record) :
  unused_only (args c) = true →
  ((py_int (used_of img) = None ∨ ∃ n, py_int (used_of img) = Some n ∧ n <= 0) →
   _match c img = _match (with_unused_only false c) img) ∧
  ((∃ n, py_int (used_of img) = Some n ∧ 0 < n) → _match c img ≠ Ret true).
Proof.
  intros Hu. rewrite !_match_conj. unfold match_conj.
  destruct (normalize img) as [d| |] eqn:Hd; simpl; [|by split..].
  pose proof (normalize_inUse img d Hd) as Hin.
  unfold p_family, p_name_contains, p_name_regex, p_version, p_version_regex,
    p_type, p_golden, p_age, p_unused; simpl.
  rewrite Hu, Hin. unfold in_use. fold (used_of img). split.
  - intros [-> | (n & -> & Hn)]; [done|].
    by destruct (Z.ltb_spec 0 n); [lia|].
  - intros (n & -> & Hn). destruct (Z.ltb_spec 0 n); [|lia]. simpl.
    rewrite !andb_false_r. done.
Qed.

Lemma select_cons (c : filters) (img : record) (images : list record) :
  select c (img :: images) =
    match _match c img with
    | Ret keep =>
        match select c images with
        | Ret rest => Ret (if keep then img :: rest else rest)
        | Raise e => Raise e
        | OutOfFuel => OutOfFuel
        end
    | Raise e => Raise e
    | OutOfFuel => OutOfFuel
    end.
Proof. reflexivity. Qed.

(** The selection keeps, in the order of the inventory, exactly the
    entries that the matcher accepts; and one entry with a text field
    that is not a string makes the whole selection fail. *)
Theorem select_filters_in_order (c : filters) (images : list record) :
  (Forall (λ img, well_typed img = true) images →
   select c images = Ret (List.filter (kept c) images)) ∧
  (Exists (λ img, well_typed img = false) images →
   select c images = Raise AttributeError).
Proof.
  split.
  - induction 1 as [|img images Himg _ IH]; [done|].
    rewrite select_cons, IH. cbn [List.filter].
    assert (kept c img = match _match c img with Ret true => true | _ => false end)
      as -> by done.
    destruct (proj1 (_match_by_type c img) Himg) as [b ->].
    by destruct b.
  - induction images as [|img images IH]; [by intros ?%Exists_nil|].
    intros Hex. rewrite select_cons.
    destruct (well_typed img) eqn:Himg.
    + destruct (proj1 (_match_by_type c img) Himg) as [b ->].
      rewrite IH; [done|]. apply Exists_cons in Hex as [Hex|Hex]; [congruence|done].
    + by rewrite (proj2 (_match_by_type c img) Himg).
Qed.

(** The golden flag of a row is the one the matcher tested: a row selected
    under a golden filter has that golden value, so a run with
    [--golden false] never enters the removal of the golden tag. *)
Theorem selected_rows_agree_with_golden_filter
    (c : filters) (img : record) (g : bool) cli base fuel w :
  golden (args c) = Some g → _match c img = Ret true →
  row_golden (img_row img) = g ∧
  (g = false →
   remove_golden_first cli base fuel (img_row img) w = (Ret None, w)).
Proof.
  intros Hg. rewrite _match_conj. unfold match_conj.
  destruct (normalize img) as [d| |] eqn:Hd; simpl; [|done..].
  intros [= Hall]. rewrite !andb_true_iff in Hall.
  destruct Hall as (_ & _ & _ & _ & _ & _ & Hgold & _).
  unfold p_golden in Hgold. rewrite Hg in Hgold.
  rewrite (normalize_isGolden _ _ Hd) in Hgold.
  apply eqb_prop in Hgold.
  split; [done|]. intros ->. unfold remove_golden_first. simpl.
  by rewrite Hgold.
Qed.

(** ** Task poller *)

(** An iteration either returns after its poll, whatever fuel is left, or
    waits and goes round again. *)
Lemma get_task_loop_step_any url start timeout pi w :
  (∃ res, res ≠ OutOfFuel ∧
          ∀ fuel, get_task_loop (S fuel) url start timeout pi w
                  = (res, polled url w)) ∨
  ((0 <= pi)%Q ∧
   ∀ fuel, get_task_loop (S fuel) url start timeout pi w =
           get_task_loop fuel url start timeout pi (idle_poll url pi w)).
Proof.
  unfold idle_poll, polled. cbn [get_task_loop].
  setoid_rewrite bind_unfold. unfold request.
  destruct (server w (sent w)) as [r|e] eqn:Hr; cbn [fst snd].
  2:{ left. eexists. split; [|intros; reflexivity]. done. }
  destruct (status_code r =? 200) eqn:Hs; cbn [negb].
  2:{ left. eexists. split; [|intros; reflexivity]. done. }
  setoid_rewrite bind_unfold. unfold lift.
  destruct (task_fields r) as [[[[data progress] is_error] failure]| |] eqn:Hf.
  3: by destruct (task_fields_fuel r).
  2:{ left. eexists. split; [|intros; reflexivity]. done. }
  destruct (_ || _).
  { left. eexists. split; [|intros; reflexivity]. done. }
  destruct (_ && _).
  { left. eexists. split; [|intros; reflexivity]. done. }
  setoid_rewrite bind_unfold. unfold time_time. cbn [fst snd clock].
  destruct (Qltb _ _).
  { left. eexists. split; [|intros; reflexivity]. done. }
  setoid_rewrite bind_unfold. unfold time_sleep.
  destruct (Qltb pi 0) eqn:Hpi.
  { left. eexists. split; [|intros; reflexivity]. done. }
  right. split; [by apply Qltb_false_le|]. done.
Qed.

(** A run of the loop that returns has made [k] rounds of poll and wait
    and one more poll; any larger fuel gives the same run. *)
Lemma get_task_loop_shape fuel url start timeout pi w res w' :
  get_task_loop fuel url start timeout pi w = (res, w') → res ≠ OutOfFuel →
  ∃ k, (k < fuel)%nat ∧
       w' = polled url (Nat.iter k (idle_poll url pi) w) ∧
       (k = 0%nat ∨ (0 <= pi)%Q) ∧
       ∀ n, get_task_loop (S k + n) url start timeout pi w = (res, w').
Proof.
  revert w. induction fuel as [|fuel IH]; intros w Hrun Hres.
  { simpl in Hrun. by injection Hrun as <- _. }
  destruct (get_task_loop_step_any url start timeout pi w)
    as [(res0 & Hres0 & Heq)|[Hpi Heq]].
  - rewrite Heq in Hrun. injection Hrun as <- <-.
    exists 0%nat. split; [lia|]. split; [done|]. split; [by left|].
    intros n. apply Heq.
  - rewrite Heq in Hrun.
    destruct (IH _ Hrun Hres) as (k & Hk & -> & _ & Hmore).
    exists (S k). split; [lia|]. split; [by rewrite Nat.iter_succ_r|].
    split; [by right|]. intros n.
    replace (S (S k) + n)%nat with (S (S k + n)) by lia.
    rewrite Heq. apply Hmore.
Qed.

Lemma iter_idle_poll_sent url pi k w :
  sent (Nat.iter k (idle_poll url pi) w) = (sent w + k)%nat.
Proof.
  induction k as [|k IH]; simpl; [lia|].
  unfold idle_poll at 1, time_sleep, polled.
  destruct (Qltb pi 0); simpl; rewrite request_sent, IH; lia.
Qed.

Lemma iter_idle_poll_trace url pi k w :
  (0 <= pi)%Q →
  trace (Nat.iter k (idle_poll url pi) w) = trace w ++ poll_rounds url pi k.
Proof.
  intros Hpi. revert w. induction k as [|k IH]; intros w.
  - simpl. by rewrite app_nil_r.
  - rewrite Nat.iter_succ_r, IH, idle_poll_eq by done. simpl.
    by rewrite <- !app_assoc.
Qed.

Lemma iter_idle_poll_stdin url pi k w :
  stdin (Nat.iter k (idle_poll url pi) w) = stdin w.
Proof.
  induction k as [|k IH]; simpl; [done|].
  unfold idle_poll at 1, time_sleep, polled, request.
  by destruct (Qltb pi 0), (server _ _); simpl.
Qed.

(** Whatever the controller does, a run of [get_task] that returns has
    only alternated polls of the one task URL with waits of the interval,
    and its last action is a poll. *)
Theorem get_task_alternates_polls_and_waits fuel base task_id timeout pi w :
  let url := base +:+ "/dna/intent/api/v1/task/" +:+ str task_id in
  let run := get_task fuel base task_id timeout pi w in
  (0 <= pi)%Q → run.1 ≠ OutOfFuel →
  ∃ k, (k < fuel)%nat ∧
       sent run.2 = (sent w + S k)%nat ∧
       trace run.2 = trace w ++ poll_rounds url pi k ++ [EvRequest GET ApiTask url] ∧
       stdin run.2 = stdin w.
Proof.
  intros url run Hpi Hres. unfold run, get_task in *.
  rewrite bind_unfold in *. unfold time_time in *. fold url in Hres |- *.
  destruct (get_task_loop fuel url (clock w) timeout pi w) as [res w'] eqn:Hrun.
  destruct (get_task_loop_shape _ _ _ _ _ _ _ _ Hrun Hres) as (k & Hk & -> & _ & _).
  exists k. split; [done|]. unfold polled. simpl.
  rewrite request_sent, request_trace, iter_idle_poll_sent,
    iter_idle_poll_trace by done.
  split; [lia|]. split; [by rewrite <- app_assoc|].
  unfold request. destruct (server _ _); simpl; apply iter_idle_poll_stdin.
Qed.

(** With a positive interval and a clock that does not run backwards,
    [get_task] sends at most [poll_bound] requests, however much fuel the
    model is given. *)
Theorem get_task_poll_count_is_bounded fuel base task_id timeout pi w :
  let run := get_task fuel base task_id timeout pi w in
  (0 < pi)%Q → (∀ n, (0 <= latency w n)%Q) → run.1 ≠ OutOfFuel →
  (sent run.2 <= sent w + poll_bound timeout pi)%nat.
Proof.
  intros run Hpi Hlat Hres. unfold run, get_task in *.
  rewrite bind_unfold in *. unfold time_time in *.
  set (url := base +:+ "/dna/intent/api/v1/task/" +:+ str task_id) in *.
  destruct (get_task_loop fuel url (clock w) timeout pi w) as [res w'] eqn:Hrun.
  simpl in Hres |- *.
  destruct (get_task_loop_shape _ _ _ _ _ _ _ _ Hrun Hres) as (k & Hk & _ & _ & Hmore).
  set (f0 := S (Z.to_nat (Qfloor (inject_Z timeout / pi)))).
  destruct (get_task_loop_returns f0 url (clock w) timeout pi w)
    as (res0 & w0 & Hrun0 & Hres0 & _); [done..| |].
  { assert (inject_Z timeout < inject_Z (Z.of_nat f0) * pi)%Q; [|lra].
    by apply poll_bound_enough. }
  destruct (get_task_loop_shape _ _ _ _ _ _ _ _ Hrun0 Hres0)
    as (k0 & Hk0 & -> & _ & Hmore0).
  assert ((res, w') = (res0, polled url (Nat.iter k0 (idle_poll url pi) w))) as Heq.
  { rewrite <- (Hmore k0), <- (Hmore0 k).
    by replace (S k + k0)%nat with (S k0 + k)%nat by lia. }
  injection Heq as _ ->. unfold polled.
  rewrite request_sent, iter_idle_poll_sent. unfold poll_bound. fold f0. lia.
Qed.

(** One iteration of the loop on a reply whose progress names completion. *)
Lemma get_task_loop_succeeded fuel url start timeout pi w r data progress
    is_error failure keyword :
  server w (sent w) = Responds r → status_code r = 200 →
  task_fields r = Ret (data, progress, is_error, failure) →
  truthy is_error = false → truthy failure = false → truthy progress = true →
  keyword ∈ completion_keywords → str_in keyword (lower (str progress)) = true →
  get_task_loop (S fuel) url start timeout pi w = (Ret (TaskOk data), polled url w).
Proof.
  intros Hr Hs Hf He1 He2 Hp Hkw Hin. simpl. rewrite bind_unfold.
  unfold polled, request. rewrite Hr, Hs. simpl. rewrite bind_unfold.
  unfold lift. rewrite Hf, He1, He2, Hp. simpl.
  assert (existsb (λ k, str_in k (lower (str progress))) completion_keywords = true)
    as Hex.
  { apply existsb_exists. exists keyword. split; [|done].
    by apply list_elem_of_In. }
  unfold completion_keywords in Hex. simpl in Hex. by rewrite Hex.
Qed.

(** A poll whose task reports no error and whose progress text contains a
    completion keyword (after [str] and [lower]) ends [get_task] with
    success on that poll, the elapsed time not being looked at. *)
Theorem get_task_succeeds_on_keyword
    fuel base task_id timeout pi w k r data progress is_error failure keyword :
  let url := base +:+ "/dna/intent/api/v1/task/" +:+ str task_id in
  let wk := Nat.iter k (idle_poll url pi) w in
  (k < fuel)%nat → (0 <= pi)%Q →
  (∀ j, (j < k)%nat →
        (∃ d, pending_reply (Nat.iter j (idle_poll url pi) w) d) ∧
        timed_out url (clock w) timeout (Nat.iter j (idle_poll url pi) w) = false) →
  server wk (sent wk) = Responds r → status_code r = 200 →
  task_fields r = Ret (data, progress, is_error, failure) →
  truthy is_error = false → truthy failure = false → truthy progress = true →
  keyword ∈ completion_keywords → str_in keyword (lower (str progress)) = true →
  get_task fuel base task_id timeout pi w = (Ret (TaskOk data), polled url wk).
Proof.
  intros url wk Hk Hpi Hidle Hr Hs Hf He1 He2 Hp Hkw Hin.
  unfold get_task. rewrite bind_unfold. unfold time_time. fold url.
  replace fuel with (k + S (fuel - S k))%nat by lia.
  rewrite get_task_loop_skip by done. fold wk.
  by eapply get_task_loop_succeeded.
Qed.

(** A poll answered with a status other than 200 ends [get_task] on that
    poll with the error "task query failed <status>" and the body text as
    [raw]; the body is not decoded and the poll is not retried. *)
Theorem get_task_fails_on_bad_status fuel base task_id timeout pi w k r :
  let url := base +:+ "/dna/intent/api/v1/task/" +:+ str task_id in
  let wk := Nat.iter k (idle_poll url pi) w in
  (k < fuel)%nat → (0 <= pi)%Q →
  (∀ j, (j < k)%nat →
        (∃ d, pending_reply (Nat.iter j (idle_poll url pi) w) d) ∧
        timed_out url (clock w) timeout (Nat.iter j (idle_poll url pi) w) = false) →
  server wk (sent wk) = Responds r → status_code r ≠ 200 →
  get_task fuel base task_id timeout pi w =
    (Ret (TaskError (JStr ("task query failed " +:+ str_int (status_code r)))
                    (JStr (text r))), polled url wk).
Proof.
  intros url wk Hk Hpi Hidle Hr Hs.
  unfold get_task. rewrite bind_unfold. unfold time_time. fold url.
  replace fuel with (k + S (fuel - S k))%nat by lia.
  rewrite get_task_loop_skip by done. fold wk.
  by apply get_task_loop_query_failed.
Qed.

(** ** Deletion protocol *)

Lemma delete_image_loop_requests base paths tried last w :
  let run := delete_image_loop base paths tried last w in
  ∃ n, (n <= length paths)%nat ∧ (paths ≠ [] → (1 <= n)%nat) ∧
       sent run.2 = (sent w + n)%nat ∧
       trace run.2 = trace w ++ delete_requests base (take n paths) ∧
       run.1 ≠ OutOfFuel ∧
       (∀ tried' last', run.1 = Ret (DeleteFailed tried' last') →
                        n = length paths ∧
                        tried' = tried ++ attempts w (sent w) paths).
Proof.
  revert tried last w. induction paths as [|p paths IH]; intros tried last w run.
  - exists 0%nat. unfold run. simpl. rewrite !app_nil_r.
    split_and!; [lia|done|lia|done|done|]. by intros ? ? [= <- _].
  - unfold run. cbn [delete_image_loop]. rewrite bind_unfold.
    pose proof (request_sent DELETE ApiDeleteImage (base +:+ p) w) as Hsent.
    pose proof (request_trace DELETE ApiDeleteImage (base +:+ p) w) as Htrace.
    pose proof (request_server DELETE ApiDeleteImage (base +:+ p) w) as Hserver.
    destruct (request DELETE ApiDeleteImage (base +:+ p) w) as [[r|e|] w1] eqn:Hreq;
      simpl in Hsent, Htrace, Hserver.
    3:{ exfalso. unfold request in Hreq. by destruct (server w (sent w)). }
    2:{ exists 1%nat. simpl. rewrite ?take_0.
        split_and!; [lia|lia|lia|done|done|done]. }
    assert (server w (sent w) = Responds r) as Hr.
    { unfold request in Hreq. destruct (server w (sent w)); congruence. }
    destruct (accepted (status_code r)).
    { rewrite bind_unfold. unfold lift.
      exists 1%nat. simpl. rewrite ?take_0.
      destruct (task_id_of r) as [t| |] eqn:Ht; simpl;
        [|split_and!; [lia|lia|lia|done|done|done]
         |by destruct (task_id_of_fuel r)].
      split_and!; [lia|lia|lia|done|done|done]. }
    destruct (status_code r =? 204).
    { exists 1%nat. simpl. rewrite ?take_0.
      split_and!; [lia|lia|lia|done|done|done]. }
    destruct (IH (tried ++ [(p, status_code r)]) (text r) w1)
      as (n & Hn & _ & Hs & Ht & Hfuel & Hfail).
    exists (S n). simpl. rewrite Hs, Ht, Hsent, Htrace, <- app_assoc.
    split_and!; [lia|lia|lia|done|done|].
    intros tried' last' Hres. destruct (Hfail _ _ Hres) as [-> ->].
    split; [done|]. rewrite <- app_assoc. simpl.
    assert (w1 = (request DELETE ApiDeleteImage (base +:+ p) w).2) as ->
      by by rewrite Hreq.
    rewrite attempts_request, request_sent. unfold status_at. by rewrite Hr.
Qed.

(** Whatever the controller answers, [delete_image] sends one or two
    DELETE requests, for the candidate paths in their order, and nothing
    else; it reports failure only after both, with one (path, status) pair
    for each. *)
Theorem delete_image_sends_one_or_two_requests base image_id w :
  let run := delete_image base image_id w in
  ∃ n, (1 <= n <= 2)%nat ∧
       sent run.2 = (sent w + n)%nat ∧
       trace run.2 =
         trace w ++ take n (delete_requests base (delete_paths image_id)) ∧
       (∀ tried last_text, run.1 = Ret (DeleteFailed tried last_text) →
                           n = 2%nat ∧
                           tried = attempts w (sent w) (delete_paths image_id)).
Proof.
  intros run.
  destruct (delete_image_loop_requests base (delete_paths image_id) [] "" w)
    as (n & Hn & Hpos & Hs & Ht & _ & Hfail).
  exists n. simpl in Hn. split; [split; [by apply Hpos|done]|].
  split; [done|]. split.
  - unfold run, delete_image. rewrite Ht. unfold delete_requests.
    by rewrite <- fmap_take.
  - intros tried last_text Hres. by destruct (Hfail _ _ Hres) as [-> ->].
Qed.

Lemma delete_and_wait_unfold base fuel r w :
  delete_and_wait base fuel r w =
    (delete_image base (imageUuid r) ≫= λ res,
       match res with
       | DeleteOk task_id _ =>
           if truthy task_id then
             tr ← get_task fuel base task_id default_timeout default_poll_interval;
             match tr with
             | TaskError e _ => mret (Failed r ("task failed: " +:+ str e))
             | TaskOk _ =>
                 _ ← log ("Deleted " +:+ str (imageUuid r));
                 mret (Deleted r)
             end
           else
             _ ← log ("Deleted " +:+ str (imageUuid r));
             mret (Deleted r)
       | DeleteFailed tried last_text =>
           mret (Failed r ("delete failed (paths tried " +:+ repr_tried tried
                           +:+ "): " +:+ last_text))
       end)
      (emit (EvLog ("Deleting image " +:+ str (imageUuid r) +:+ " ("
                    +:+ str (row_name r) +:+ " v" +:+ str (row_version r)
                    +:+ ") ...")) w).
Proof. reflexivity. Qed.

(** A deletion answered with success and no task handle is final: the row
    is reported deleted after that one request, without any poll. *)
Theorem delete_without_handle_is_immediate base fuel r w resp tid :
  server w (sent w) = Responds resp → succeeded_with resp tid →
  truthy tid = false →
  ∃ w', delete_and_wait base fuel r w = (Ret (Deleted r), w') ∧
        sent w' = S (sent w) ∧
        trace w' =
          trace w ++
          [EvLog ("Deleting image " +:+ str (imageUuid r) +:+ " ("
                  +:+ str (row_name r) +:+ " v" +:+ str (row_version r)
                  +:+ ") ...");
           EvRequest DELETE ApiDeleteImage
             (base +:+ "/dna/intent/api/v1/image/importation/"
              +:+ str (imageUuid r));
           EvLog ("Deleted " +:+ str (imageUuid r))].
Proof.
  intros Hr Hs Htid. rewrite delete_and_wait_unfold, bind_unfold.
  unfold delete_image, delete_paths.
  erewrite delete_image_loop_success; [|exact Hr|exact Hs].
  rewrite Htid, bind_unfold. unfold log at 1.
  eexists. split; [reflexivity|]. simpl.
  rewrite request_sent, request_trace. simpl.
  split; [done|]. by rewrite <- !app_assoc.
Qed.

(** A deletion accepted with a task handle is decided by the task: an
    error of the poller files the row as failed with the reason
    "task failed: ...", a success reports it deleted; either way the
    second candidate path is not tried. *)
Theorem accepted_delete_follows_its_task base fuel r w resp tid tr w2 :
  let w1 := (request DELETE ApiDeleteImage
               (base +:+ "/dna/intent/api/v1/image/importation/"
                +:+ str (imageUuid r))
               (emit (EvLog ("Deleting image " +:+ str (imageUuid r) +:+ " ("
                             +:+ str (row_name r) +:+ " v" +:+ str (row_version r)
                             +:+ ") ...")) w)).2 in
  server w (sent w) = Responds resp →
  accepted (status_code resp) = true → task_id_of resp = Ret tid →
  truthy tid = true →
  get_task fuel base tid default_timeout default_poll_interval w1 = (Ret tr, w2) →
  delete_and_wait base fuel r w =
    match tr with
    | TaskError e _ => (Ret (Failed r ("task failed: " +:+ str e)), w2)
    | TaskOk _ => (Ret (Deleted r), emit (EvLog ("Deleted " +:+ str (imageUuid r))) w2)
    end ∧
  ∃ evs, trace w2 = trace w1 ++ evs ∧
         Forall (λ ev, ¬ is_request_of ApiDeleteImage ev) evs.
Proof.
  intros w1 Hr Hacc Htid Htruthy Hpoll. split.
  - rewrite delete_and_wait_unfold, bind_unfold.
    unfold delete_image, delete_paths.
    erewrite delete_image_loop_success; [|exact Hr|left; by split].
    fold w1. rewrite Htruthy, bind_unfold, Hpoll.
    destruct tr; [done|]. rewrite bind_unfold. done.
  - pose proof (emits_get_task (λ ev, ¬ is_request_of ApiDeleteImage ev)
                  fuel base tid default_timeout default_poll_interval) as Hem.
    destruct (Hem (λ _, id) id w1) as (_ & _ & evs & Hevs & Hall).
    rewrite Hpoll in Hevs. by exists evs.
Qed.

(** When both candidate paths are refused the row is filed as failed with
    a reason that shows both (path, status) attempts and the body of the
    second response. *)
Theorem refused_delete_reports_both_attempts base fuel r w r1 r2 :
  server w (sent w) = Responds r1 → server w (S (sent w)) = Responds r2 →
  success_status (status_code r1) = false →
  success_status (status_code r2) = false →
  ∃ w', delete_and_wait base fuel r w =
          (Ret (Failed r
                  ("delete failed (paths tried "
                   +:+ repr_tried
                         [("/dna/intent/api/v1/image/importation/"
                           +:+ str (imageUuid r), status_code r1);
                          ("/dna/intent/api/v1/image/" +:+ str (imageUuid r),
                           status_code r2)]
                   +:+ "): " +:+ text r2)), w') ∧
        sent w' = S (S (sent w)).
Proof.
  intros Hr1 Hr2 Hs1 Hs2. rewrite delete_and_wait_unfold, bind_unfold.
  set (w0 := emit _ w).
  destruct (delete_image_loop_exhausted base (delete_paths (imageUuid r)) [] "" w0)
    as (w' & Hrun & Hsent & _).
  { intros [|[|j]] Hj; simpl in Hj; [| |lia].
    - exists r1. simpl. by rewrite Nat.add_0_r.
    - exists r2. simpl. by rewrite Nat.add_1_r. }
  unfold delete_image. rewrite Hrun. simpl. unfold status_at, text_at. simpl.
  rewrite Hr1, Hr2. eexists. split; [reflexivity|]. simpl in Hsent. lia.
Qed.

(** The removal of the golden tag does not stand in the way when it
    succeeds: answered 204, or accepted without a task handle, or accepted
    with a task that the poller reports successful, the loop body goes on
    to the deletion of the image. *)
Theorem golden_removal_success_proceeds
    cli base fuel r w site_id family_id role resp :
  let url := golden_url base site_id family_id role (imageUuid r) in
  let w1 := (request DELETE ApiRemoveGolden url
               (emit (EvLog ("Removing golden tag for image "
                              +:+ str (imageUuid r) +:+ " ...")) w)).2 in
  row_golden r = true → truthy (imageUuid r) = true →
  given (arg_site_id cli) = Some site_id →
  given (arg_device_family_identifier cli) = Some family_id →
  given (arg_device_role cli) = Some role →
  server w (sent w) = Responds resp →
  (succeeded_with resp JNull ∨
   (∃ tid, succeeded_with resp tid ∧ truthy tid = false) →
   delete_row cli base fuel r w = delete_and_wait base fuel r w1) ∧
  (∀ tid data w2,
     accepted (status_code resp) = true → task_id_of resp = Ret tid →
     truthy tid = true →
     get_task fuel base tid default_timeout default_poll_interval w1
       = (Ret (TaskOk data), w2) →
     delete_row cli base fuel r w = delete_and_wait base fuel r w2).
Proof.
  intros url w1 Hg Hid Hsite Hfam Hrole Hresp. unfold golden_url in url.
  assert (Hw1 : request DELETE ApiRemoveGolden url
                  (emit (EvLog ("Removing golden tag for image "
                                 +:+ str (imageUuid r) +:+ " ...")) w)
                = (Ret resp, w1)).
  { unfold w1, request. simpl. by rewrite Hresp. }
  split.
  - intros Hok.
    assert (∃ tid, succeeded_with resp tid ∧ truthy tid = false)
      as (tid & Hs & Htid).
    { destruct Hok as [Hok|Hok]; [by exists JNull|done]. }
    unfold delete_row. rewrite Hid. simpl. rewrite bind_unfold.
    unfold remove_golden_first. rewrite Hg, Hsite, Hfam, Hrole.
    rewrite bind_unfold. unfold log at 1. rewrite bind_unfold.
    unfold remove_golden. fold url. rewrite bind_unfold, Hw1.
    destruct Hs as [[-> Ht]|[H204 ->]].
    + unfold lift. by rewrite Ht, Htid.
    + rewrite H204. done.
  - intros tid data w2 Hacc Htid Htruthy Hpoll.
    unfold delete_row. rewrite Hid. simpl. rewrite bind_unfold.
    unfold remove_golden_first. rewrite Hg, Hsite, Hfam, Hrole.
    rewrite bind_unfold. unfold log at 1. rewrite bind_unfold.
    unfold remove_golden. fold url. rewrite bind_unfold, Hw1, Hacc.
    unfold lift. rewrite Htid, Htruthy. by rewrite bind_unfold, Hpoll.
Qed.

(** ** Orchestrator *)

Lemma with_events_nil w : with_events w [] = w.
Proof. destruct w. unfold with_events. simpl. by rewrite app_nil_r. Qed.

Lemma with_events_app w evs evs' :
  with_events (with_events w evs) evs' = with_events w (evs ++ evs').
Proof. unfold with_events. simpl. by rewrite app_assoc. Qed.

Lemma log_with_events msg w : log msg w = (Ret tt, with_events w [EvLog msg]).
Proof. reflexivity. Qed.

Lemma rows_logged (table : list row) w :
  foldr (λ r (k : M unit), log (row_line r) ≫= λ _, k) (mret tt) table w =
    (Ret tt, with_events w (map (λ r, EvLog (row_line r)) table)).
Proof.
  revert w. induction table as [|r table IH]; intros w; simpl.
  - by rewrite with_events_nil.
  - rewrite bind_unfold, log_with_events, IH, with_events_app. done.
Qed.

Lemma confirm_run (prompt : string) (w : world) :
  ∃ b, confirm prompt w =
         (Ret b,
          {| server := server w; latency := latency w; sent := sent w;
             clock := clock w; stdin := tail (stdin w);
             trace := trace w ++ [EvLog (prompt +:+ " [y/N]: ")] |}) ∧
       (b = true ↔ ∃ ans rest, stdin w = ans :: rest ∧
                               lower (strip ans) ∈ ["y"; "yes"]).
Proof.
  unfold confirm, input, emit. destruct (stdin w) as [|ans rest] eqn:Hin.
  - exists false. split; [done|]. split; [done|]. by intros (? & ? & ? & _).
  - exists (bool_decide (lower (strip ans) ∈ ["y"; "yes"])). split; [done|].
    rewrite bool_decide_eq_true. split.
    + intros H. by exists ans, rest.
    + by intros (? & ? & [= <- <-] & H).
Qed.

(** [confirm] never raises: it consumes one line of input, if there is
    one, and answers yes exactly when that line, stripped and lower-cased,
    is "y" or "yes"; at the end of the input it answers no. *)
Theorem confirm_accepts_only_yes (prompt : string) (w : world) :
  ∃ b, confirm prompt w =
         (Ret b,
          {| server := server w; latency := latency w; sent := sent w;
             clock := clock w; stdin := tail (stdin w);
             trace := trace w ++ [EvLog (prompt +:+ " [y/N]: ")] |}) ∧
       (b = true ↔ ∃ ans rest, stdin w = ans :: rest ∧
                               lower (strip ans) ∈ ["y"; "yes"]).
Proof. apply confirm_run. Qed.

Local Ltac main_listing Hc Hcand table :=
  unfold main; rewrite bind_unfold; unfold utcnow at 1;
  rewrite bind_unfold; unfold lift at 1; rewrite Hc;
  rewrite bind_unfold; unfold lift at 1; rewrite Hcand;
  rewrite bind_unfold;
  match goal with
  | |- context [ (if negb (arg_json ?cli) then ?m else mret ()) ?w ] =>
      let H := fresh "Hlisting" in
      assert ((if negb (arg_json cli) then m else mret ()) w
              = (Ret tt, with_events w (listing_events cli table))) as H;
      [ unfold listing_events; destruct (arg_json cli); cbn [negb];
        [ by rewrite with_events_nil
        | rewrite bind_unfold, log_with_events, bind_unfold, rows_logged,
            log_with_events, !with_events_app; reflexivity ]
      | rewrite H; clear H; cbv beta iota ]
  end.

(** A dry run only writes: it lists the candidates, reports the dry run
    and returns, without a request, a wait or a read of the input. *)
Theorem dry_run_sends_nothing cli base fuel images w c table :
  compile_filters (filter_args cli) (Qfloor (clock w * 1000000)) = Ret c →
  candidates c images = Ret table →
  arg_dry_run cli = true →
  main cli base fuel images w =
    (Ret None,
     with_events w
       (listing_events cli table ++
        [if arg_json cli then EvJson (PrDryRun table)
         else EvLog (nl +:+ "DRY RUN: no deletions performed.")])) ∧
  sent (main cli base fuel images w).2 = sent w.
Proof.
  intros Hc Hcand Hdry.
  assert (main cli base fuel images w =
    (Ret None,
     with_events w
       (listing_events cli table ++
        [if arg_json cli then EvJson (PrDryRun table)
         else EvLog (nl +:+ "DRY RUN: no deletions performed.")]))) as Hrun.
  { main_listing Hc Hcand table. rewrite Hdry, bind_unfold.
    destruct (arg_json cli); unfold print_json, log, emit, with_events; simpl;
      by rewrite <- ?app_assoc. }
  by rewrite Hrun.
Qed.

(** When nothing matches, [main] says so and returns: no request is sent
    and no confirmation is asked, with or without [--yes]. *)
Theorem no_match_sends_nothing cli base fuel images w c :
  compile_filters (filter_args cli) (Qfloor (clock w * 1000000)) = Ret c →
  candidates c images = Ret [] →
  arg_dry_run cli = false →
  main cli base fuel images w =
    (Ret None,
     with_events w
       (listing_events cli [] ++ [EvLog "Nothing to delete (no matches)."])).
Proof.
  intros Hc Hcand Hdry. main_listing Hc Hcand (@nil row).
  rewrite Hdry. simpl. rewrite bind_unfold. unfold log, emit, with_events. simpl.
  by rewrite <- ?app_assoc.
Qed.

(** Without [--yes], a run whose confirmation is not answered "y" or
    "yes" (or meets the end of the input) is aborted before any request:
    it returns without a report, having sent nothing. *)
Theorem declined_run_sends_nothing cli base fuel images w c table :
  compile_filters (filter_args cli) (Qfloor (clock w * 1000000)) = Ret c →
  candidates c images = Ret table →
  table ≠ [] → arg_dry_run cli = false → arg_yes cli = false →
  (∀ ans rest, stdin w = ans :: rest → lower (strip ans) ∉ ["y"; "yes"]) →
  let run := main cli base fuel images w in
  run.1 = Ret None ∧ sent run.2 = sent w ∧
  trace run.2 =
    trace w ++ listing_events cli table
    ++ [EvLog (confirm_prompt table); EvLog "Aborted."].
Proof.
  intros Hc Hcand Hne Hdry Hyes Hno run.
  assert (∃ w', run = (Ret None, w') ∧ sent w' = sent w ∧
                trace w' = trace w ++ listing_events cli table
                           ++ [EvLog (confirm_prompt table); EvLog "Aborted."])
    as (w' & -> & Hs & Ht); [|done].
  unfold run. main_listing Hc Hcand table.
  rewrite Hdry, bool_decide_eq_false_2, Hyes by done.
  rewrite bind_unfold.
  destruct (confirm_run
              ("Proceed to delete up to " +:+ str_int (Z.of_nat (length table))
               +:+ " image(s)?")
              (with_events w (listing_events cli table))) as (b & -> & Hb).
  assert (b = false) as ->.
  { destruct b; [|done]. destruct (proj1 Hb eq_refl) as (ans & rest & Hin & Hans).
    by destruct (Hno ans rest Hin). }
  change (negb false) with true. cbv iota.
  rewrite bind_unfold. unfold log at 1, emit.
  eexists. split; [reflexivity|]. simpl. split; [done|].
  unfold confirm_prompt. by rewrite <- !app_assoc.
Qed.

Lemma post_delete_and_wait_id base fuel r :
  truthy (imageUuid r) = true →
  post (outcome_respects_id r) (delete_and_wait base fuel r).
Proof.
  intros Hid. unfold delete_and_wait.
  eapply post_bind; [apply post_any|]. intros _ _.
  eapply post_bind; [apply post_any|].
  intros [task_id path|tried last_text] _.
  - destruct (truthy task_id).
    + eapply post_bind; [apply post_any|]. intros [e raw|data] _.
      * apply post_ret. simpl. split; [done|]. by rewrite Hid.
      * eapply post_bind; [apply post_any|]. intros _ _. by apply post_ret.
    + eapply post_bind; [apply post_any|]. intros _ _. by apply post_ret.
  - apply post_ret. simpl. split; [done|]. by rewrite Hid.
Qed.

Lemma post_remove_golden_first_reason cli base fuel r :
  post (λ o, ∀ error, o = Some error → ∃ e, error = "remove_golden failed: " +:+ e)
       (remove_golden_first cli base fuel r).
Proof.
  unfold remove_golden_first.
  destruct (row_golden r); [|by apply post_ret].
  destruct (given (arg_site_id cli)); [|by apply post_ret].
  destruct (given (arg_device_family_identifier cli)); [|by apply post_ret].
  destruct (given (arg_device_role cli)); [|by apply post_ret].
  eapply post_bind; [apply post_any|]. intros _ _.
  eapply post_bind; [apply post_any|]. intros task_id _.
  destruct (truthy task_id); [|by apply post_ret].
  eapply post_bind; [apply post_any|].
  intros [e raw|data] _; apply post_ret; [|done].
  intros error [= <-]. by eexists.
Qed.

Lemma post_delete_row_id cli base fuel r :
  post (outcome_respects_id r) (delete_row cli base fuel r).
Proof.
  unfold delete_row. destruct (truthy (imageUuid r)) eqn:Hid; simpl.
  - eapply post_bind; [apply post_remove_golden_first_reason|].
    intros [error|] Herr; [|by apply post_delete_and_wait_id].
    apply post_ret. simpl. rewrite Hid. split; [done|]. split; [|done].
    intros ->. by destruct (Herr _ eq_refl) as [e He].
  - apply post_ret. simpl. by rewrite Hid.
Qed.

(** Whenever the loop returns: a row is reported deleted only if it has an
    id, and a failure has the reason "missing imageUuid" exactly when its
    row has none. *)
Theorem report_respects_ids cli base fuel rows w deleted failed w' :
  deletions cli base fuel rows [] [] w = (Ret (deleted, failed), w') →
  Forall (λ r, truthy (imageUuid r) = true) deleted ∧
  Forall (λ f : failure,
            f.2 = "missing imageUuid" ↔ truthy (imageUuid f.1) = false) failed.
Proof.
  assert (∀ d0 f0,
            Forall (λ r, truthy (imageUuid r) = true) d0 →
            Forall (λ f : failure,
                      f.2 = "missing imageUuid" ↔ truthy (imageUuid f.1) = false) f0 →
            post (λ lists,
                    Forall (λ r, truthy (imageUuid r) = true) lists.1 ∧
                    Forall (λ f : failure,
                              f.2 = "missing imageUuid"
                              ↔ truthy (imageUuid f.1) = false) lists.2)
                 (deletions cli base fuel rows d0 f0)) as Hpost.
  { induction rows as [|r rows IH]; intros d0 f0 Hd Hf; simpl.
    - by apply post_ret.
    - eapply post_bind; [apply post_delete_row_id|].
      intros [r'|r' error] Ho; simpl in Ho.
      + destruct Ho as [-> Hid]. apply IH; [|done].
        apply Forall_app. split; [done|]. by constructor.
      + destruct Ho as [-> Hiff]. apply IH; [done|].
        apply Forall_app. split; [done|]. by constructor. }
  intros Hrun. by apply (Hpost [] [] (Forall_nil_2 _) (Forall_nil_2 _) _ _ _ Hrun).
Qed.

(** Whenever the loop returns, [deleted] and the rows of [failed] are
    subsequences of the rows it was given: the report keeps the order of
    the candidate table. *)
Theorem report_keeps_table_order cli base fuel rows w deleted failed w' :
  deletions cli base fuel rows [] [] w = (Ret (deleted, failed), w') →
  deleted `sublist_of` rows ∧ failed.*1 `sublist_of` rows.
Proof.
  assert (∀ d0 f0,
            post (λ lists,
                    ∃ d1 f1, lists.1 = d0 ++ d1 ∧ lists.2 = f0 ++ f1 ∧
                             d1 `sublist_of` rows ∧ f1.*1 `sublist_of` rows)
                 (deletions cli base fuel rows d0 f0)) as Hpost.
  { induction rows as [|r rows IH]; intros d0 f0; simpl.
    - apply post_ret. exists [], []. by rewrite !app_nil_r.
    - eapply post_bind; [apply post_delete_row_id|].
      intros [r'|r' error] Ho; simpl in Ho; destruct Ho as [-> _];
        intros w0 lists w1 Hrun; apply IH in Hrun;
        destruct Hrun as (d1 & f1 & Hd & Hf & Hsd & Hsf).
      + exists (r :: d1), f1. rewrite Hd, Hf, <- app_assoc.
        split_and!; [done|done|by apply sublist_skip|by apply sublist_cons].
      + exists d1, ((r, error) :: f1). rewrite Hd, Hf, <- app_assoc.
        split_and!; [done|done|by apply sublist_cons|by apply sublist_skip]. }
  intros Hrun. destruct (Hpost [] [] _ _ _ Hrun) as (d1 & f1 & Hd & Hf & Hsd & Hsf).
  simpl in Hd, Hf. by subst.
Qed.

(** ** Start-up *)

Lemma rstrip_slash_decompose (s : string) :
  ∃ n, s = rstrip_slash s +:+ slashes n.
Proof.
  induction s as [|c rest [n IH]]; [by exists 0%nat|]. cbn [rstrip_slash].
  destruct (rstrip_slash rest) as [|c' r'] eqn:Hr.
  - change (rest = slashes n) in IH.
    destruct (Ascii.eqb_spec c "/"%char) as [->|Hc].
    + exists (S n). change (String "/" rest = String "/" (slashes n)).
      by rewrite IH.
    + exists n. change (String c rest = String c (slashes n)). by rewrite IH.
  - exists n. change (String c rest = String c (String c' r' +:+ slashes n)).
    by rewrite <- IH.
Qed.

Lemma rstrip_slash_no_trailing (s t : string) : rstrip_slash s ≠ t +:+ "/".
Proof.
  revert t. induction s as [|c rest IH]; intros t; simpl.
  - by destruct t.
  - destruct (rstrip_slash rest) as [|c' r'] eqn:Hr.
    + destruct (Ascii.eqb_spec c "/"%char) as [->|Hc]; [by destruct t|].
      destruct t as [|a [|b t]]; simpl; [|done..]. intros [= ->]. done.
    + destruct t as [|a t]; simpl; [done|].
      intros [= -> Ht]. by apply (IH t).
Qed.

(** However many slashes end [--base-url], the base of the client ends in
    none, and differs from the argument only by those slashes: a URL built
    as the base followed by a path that begins with a slash has exactly
    one slash at the joint. *)
Theorem base_has_no_trailing_slash
    base_url username password token verify post cc :
  CatalystCenter_init base_url username password token verify post = Started cc →
  (∃ n, base_url = cc_base cc +:+ slashes n) ∧
  (∀ t, cc_base cc ≠ t +:+ "/").
Proof.
  intros Hinit.
  assert (cc_base cc = rstrip_slash base_url) as ->.
  { unfold CatalystCenter_init in Hinit.
    destruct (given token); [by injection Hinit as <-|].
    destruct (given username); [|done]. destruct (given password); [|done].
    destruct (_login post); try done. by injection Hinit as <-. }
  split; [apply rstrip_slash_decompose|apply rstrip_slash_no_trailing].
Qed.

Lemma _login_started post t :
  _login post = Started t →
  truthy t = true ∧
  ∃ r, post = Responds r ∧ (status_code r = 200 ∨ status_code r = 201).
Proof.
  unfold _login. destruct post as [r|e]; [|done].
  destruct (status_code r =? 200) eqn:H200; simpl.
  - destruct (json_body r) as [[| | | | | |o]|]; try done.
    destruct (truthy (py_or _ _)) eqn:Ht; [|done]. intros [= <-].
    split; [done|]. exists r. split; [done|]. left. by apply Z.eqb_eq.
  - destruct (status_code r =? 201) eqn:H201; simpl; [|done].
    destruct (json_body r) as [[| | | | | |o]|]; try done.
    destruct (truthy (py_or _ _)) eqn:Ht; [|done]. intros [= <-].
    split; [done|]. exists r. split; [done|]. right. by apply Z.eqb_eq.
Qed.

(** A client that is constructed always carries a non-empty token: the
    one supplied, which then makes the constructor ignore the credentials
    and send no login request, or else the one that a login answered 200
    or 201 returned. *)
Theorem constructed_client_has_a_token
    base_url username password token verify post cc :
  CatalystCenter_init base_url username password token verify post = Started cc →
  truthy (cc_token cc) = true ∧
  (∀ t, given token = Some t →
        cc_token cc = JStr t ∧
        ∀ username' password' post',
          CatalystCenter_init base_url username' password' token verify post'
          = Started cc) ∧
  (given token = None →
   ∃ r, post = Responds r ∧ (status_code r = 200 ∨ status_code r = 201)).
Proof.
  unfold CatalystCenter_init. destruct (given token) as [t|] eqn:Ht.
  - intros [= <-]. simpl. split.
    + unfold given in Ht. destruct token as [t'|]; [|done].
      destruct (String.eqb_spec t' ""); [done|]. injection Ht as <-.
      by destruct (String.eqb_spec t' "").
    + split; [|done]. intros ? [= <-]. split; [done|]. by intros.
  - destruct (given username); [|done]. destruct (given password); [|done].
    destruct (_login post) as [tok| | | |] eqn:Hlogin; try done.
    intros [= <-]. simpl. destruct (_login_started _ _ Hlogin) as [Htok Hr].
    split; [done|]. split; [done|]. by intros _.
Qed.

(** [list_images] hands the [response] member of the body to the caller
    only when it is truthy.  For a body whose [response] is present but
    falsy, as the empty list of an empty inventory is, it returns the
    whole body, an object, and the selection then fails on its keys with
    [AttributeError] instead of finding nothing to delete. *)
Theorem empty_inventory_crashes_the_selection (c : filters) (r : response) o v :
  status_code r = 200 → json_body r = Some (JObj o) →
  o !! "response" = Some v → truthy v = false →
  list_images (Responds r) = Started (JObj o) ∧
  select_inventory c (JObj o) = Crashed AttributeError.
Proof.
  intros Hs Hb Hkey Hv. unfold list_images. rewrite Hs, Hb. simpl.
  unfold py_or, get. rewrite Hkey. simpl. rewrite Hv. split; [done|].
  rewrite bool_decide_eq_false_2; [done|]. intros ->. by rewrite lookup_empty in Hkey.
Qed.

Lemma select_elements_objects (c : filters) (images : list record) :
  select_elements c (JObj <$> images) = select c images.
Proof.
  induction images as [|img images IH]; [done|].
  rewrite fmap_cons. cbn [select_elements select]. by rewrite IH.
Qed.

(** On an inventory that is an array of objects the selection over the
    JSON value is the selection over its entries; an element that is not
    an object makes it fail with [AttributeError], like an entry with a
    text field that is not a string. *)
Theorem select_inventory_of_array (c : filters) (elements : list json) :
  (∀ images : list record,
     elements = JObj <$> images →
     select_inventory c (JArr elements) = started_of (select c images)) ∧
  (Exists (λ v, ∀ o, v ≠ JObj o) elements →
   select_inventory c (JArr elements) = Crashed AttributeError).
Proof.
  split.
  - intros images ->. simpl. by rewrite select_elements_objects.
  - simpl. induction elements as [|v elements IH]; [by intros ?%Exists_nil|].
    intros Hex. destruct v as [| | | | | |img]; try done.
    apply Exists_cons in Hex as [Hex|Hex]; [by destruct (Hex img)|].
    specialize (IH Hex). cbn [select_elements]. unfold mbind, result_mbind.
    destruct (_match_by_type c img) as [H1 H2].
    destruct (well_typed img) eqn:Hw.
    + destruct H1 as [b ->]; [done|]. simpl.
      destruct (select_elements c elements); simpl in *; congruence.
    + by rewrite H2.
Qed.

End MoreProperties.

(** * The further properties on concrete runs *)

Lemma _match_raises_on_non_text_witness :
  _match (RT := ascii_runtime) match_all img_numeric_name = Raise AttributeError.
Proof.
  apply (proj2 (_match_raises_on_non_text (RT := ascii_runtime)
                  match_all img_numeric_name)).
  reflexivity.
Defined.

Lemma empty_filter_matches_everything_witness :
  ∃ c, compile_filters (RT := ascii_runtime) no_filter 1700000000000000 = Ret c ∧
       ∀ img, well_typed img = true → _match c img = Ret true.
Proof.
  apply (empty_filter_matches_everything (RT := ascii_runtime)
           no_filter 1700000000000000).
  unfold no_criteria. simpl. split_and!; try reflexivity. left. reflexivity.
Defined.

Lemma zero_days_is_no_age_filter_witness :
  _match (RT := ascii_runtime)
    {| args := with_older_than_days (Some 0) no_filter; v_regex := None;
       name_regex_c := None; older_than := None; now_utc := 1700000000000000 |}
    img_a =
  _match (RT := ascii_runtime) any_age img_a.
Proof.
  apply (zero_days_is_no_age_filter (RT := ascii_runtime)
           no_filter 1700000000000000); reflexivity.
Defined.

Lemma unused_only_excludes_positive_counts_witness :
  _match (RT := ascii_runtime) unused_filter img_in_use ≠ Ret true.
Proof.
  apply (proj2 (unused_only_excludes_positive_counts (RT := ascii_runtime)
                  unused_filter img_in_use eq_refl)).
  exists 3. split; [reflexivity|lia].
Defined.

Lemma select_filters_in_order_witness :
  select (RT := ascii_runtime) cat9k_filter [img_a; img_no_id; img_golden] =
    Ret (List.filter (kept (RT := ascii_runtime) cat9k_filter)
           [img_a; img_no_id; img_golden]).
Proof.
  apply (proj1 (select_filters_in_order (RT := ascii_runtime) cat9k_filter
                  [img_a; img_no_id; img_golden])).
  repeat constructor.
Defined.

Lemma selected_rows_agree_with_golden_filter_witness :
  row_golden (img_row img_a) = false ∧
  (false = false →
   remove_golden_first (RT := ascii_runtime) cli_yes "https://cc" 122
     (img_row img_a) w_no_content = (Ret None, w_no_content)).
Proof.
  apply (selected_rows_agree_with_golden_filter (RT := ascii_runtime)
           not_golden_only img_a false cli_yes "https://cc" 122 w_no_content);
    reflexivity.
Defined.

Lemma get_task_alternates_polls_and_waits_witness :
  let run := get_task (RT := ascii_runtime) 122 "https://cc" (JStr "t9") 10 (5 # 2)
               w_running in
  ∃ k, (k < 122)%nat ∧
       sent run.2 = (sent w_running + S k)%nat ∧
       trace run.2 =
         trace w_running ++ poll_rounds task_url (5 # 2) k
         ++ [EvRequest GET ApiTask task_url] ∧
       stdin run.2 = stdin w_running.
Proof.
  apply (get_task_alternates_polls_and_waits (RT := ascii_runtime)
           122 "https://cc" (JStr "t9") 10 (5 # 2) w_running).
  - discriminate.
  - vm_compute. discriminate.
Defined.

Lemma get_task_poll_count_is_bounded_witness :
  (sent (get_task (RT := ascii_runtime) 200 "https://cc" (JStr "t9") 10 (5 # 2)
           w_running).2
   <= sent w_running + poll_bound 10 (5 # 2))%nat.
Proof.
  apply (get_task_poll_count_is_bounded (RT := ascii_runtime)
           200 "https://cc" (JStr "t9") 10 (5 # 2) w_running).
  - reflexivity.
  - intros n. discriminate.
  - vm_compute. discriminate.
Defined.

Lemma get_task_succeeds_on_keyword_witness :
  get_task (RT := ascii_runtime) 122 "https://cc" (JStr "t9") 300 (5 # 2) w_done =
    (Ret (TaskOk (JObj done_task)),
     polled task_url (Nat.iter 1 (idle_poll task_url (5 # 2)) w_done)).
Proof.
  apply (get_task_succeeds_on_keyword (RT := ascii_runtime)
           122 "https://cc" (JStr "t9") 300 (5 # 2) w_done 1 task_done
           (JObj done_task) (JStr "Image Deletion COMPLETED") JNull JNull
           "completed").
  - lia.
  - discriminate.
  - intros [|j] Hj; [|lia]. split; [|reflexivity].
    exists (JObj running_task), task_running, (JStr "running"), JNull, JNull.
    repeat split; reflexivity.
  - reflexivity.
  - reflexivity.
  - reflexivity.
  - reflexivity.
  - reflexivity.
  - reflexivity.
  - left.
  - reflexivity.
Defined.

Lemma get_task_fails_on_bad_status_witness :
  get_task (RT := ascii_runtime) 122 "https://cc" (JStr "t9") 300 (5 # 2) w_refused =
    (Ret (TaskError (JStr "task query failed 404") (JStr "not found")),
     polled task_url w_refused).
Proof.
  apply (get_task_fails_on_bad_status (RT := ascii_runtime)
           122 "https://cc" (JStr "t9") 300 (5 # 2) w_refused 0 not_found).
  - lia.
  - discriminate.
  - intros j Hj. lia.
  - reflexivity.
  - discriminate.
Defined.

Lemma delete_image_sends_one_or_two_requests_witness :
  let run := delete_image (RT := ascii_runtime) "https://cc" (JStr "u1") w_refused in
  ∃ n, (1 <= n <= 2)%nat ∧
       sent run.2 = (sent w_refused + n)%nat ∧
       trace run.2 =
         trace w_refused
         ++ take n (delete_requests "https://cc"
                      (delete_paths (RT := ascii_runtime) (JStr "u1"))) ∧
       (∀ tried last_text, run.1 = Ret (DeleteFailed tried last_text) →
                           n = 2%nat ∧
                           tried = attempts w_refused (sent w_refused)
                                     (delete_paths (RT := ascii_runtime) (JStr "u1"))).
Proof.
  exact (delete_image_sends_one_or_two_requests (RT := ascii_runtime)
           "https://cc" (JStr "u1") w_refused).
Defined.

Lemma delete_without_handle_is_immediate_witness :
  ∃ w', delete_and_wait (RT := ascii_runtime) "https://cc" 122 row_a w_no_content
          = (Ret (Deleted row_a), w') ∧
        sent w' = 1%nat ∧
        trace w' =
          [EvLog "Deleting image u1 (cat9k_iosxe.17.09.04a.bin v17.9.4a) ...";
           EvRequest DELETE ApiDeleteImage
             "https://cc/dna/intent/api/v1/image/importation/u1";
           EvLog "Deleted u1"].
Proof.
  apply (delete_without_handle_is_immediate (RT := ascii_runtime)
           "https://cc" 122 row_a w_no_content no_content JNull).
  - reflexivity.
  - right. split; reflexivity.
  - reflexivity.
Defined.

Lemma accepted_delete_follows_its_task_witness :
  (delete_and_wait (RT := ascii_runtime) "https://cc" 122 row_a w_golden_fails).1 =
    Ret (Failed row_a "task failed: boom").
Proof.
  set (w1 := (request DELETE ApiDeleteImage
                "https://cc/dna/intent/api/v1/image/importation/u1"
                (emit (EvLog "Deleting image u1 (cat9k_iosxe.17.09.04a.bin v17.9.4a) ...")
                   w_golden_fails)).2).
  set (w2 := (get_task (RT := ascii_runtime) 122 "https://cc" (JStr "t9")
                default_timeout default_poll_interval w1).2).
  destruct (accepted_delete_follows_its_task (RT := ascii_runtime)
              "https://cc" 122 row_a w_golden_fails accepted_task (JStr "t9")
              (TaskError (JStr "boom") (JObj failed_task)) w2
              eq_refl eq_refl eq_refl eq_refl eq_refl) as [Heq _].
  rewrite Heq. reflexivity.
Defined.

Lemma refused_delete_reports_both_attempts_witness :
  ∃ w', delete_and_wait (RT := ascii_runtime) "https://cc" 122 row_a w_refused =
          (Ret (Failed row_a
                  ("delete failed (paths tried "
                   +:+ "[('/dna/intent/api/v1/image/importation/u1', 404)"
                   +:+ "('/dna/intent/api/v1/image/u1', 404)]"
                   +:+ "): not found")), w') ∧
        sent w' = 2%nat.
Proof.
  apply (refused_delete_reports_both_attempts (RT := ascii_runtime)
           "https://cc" 122 row_a w_refused not_found not_found);
    reflexivity.
Defined.

Lemma golden_removal_success_proceeds_witness :
  delete_row (RT := ascii_runtime) cli_yes "https://cc" 122 row_golden_ex
    w_no_content =
  delete_and_wait (RT := ascii_runtime) "https://cc" 122 row_golden_ex
    (request DELETE ApiRemoveGolden
       (golden_url (RT := ascii_runtime) "https://cc" "-1" "277696480" "ALL"
          (JStr "u2"))
       (emit (EvLog "Removing golden tag for image u2 ...") w_no_content)).2.
Proof.
  apply (proj1 (golden_removal_success_proceeds (RT := ascii_runtime)
                  cli_yes "https://cc" 122 row_golden_ex w_no_content
                  "-1" "277696480" "ALL" no_content
                  eq_refl eq_refl eq_refl eq_refl eq_refl eq_refl)).
  left. right. split; reflexivity.
Defined.

Lemma confirm_accepts_only_yes_witness :
  ∃ b, confirm (RT := ascii_runtime) "Proceed?" w_answer_yes =
         (Ret b,
          {| server := server w_answer_yes; latency := latency w_answer_yes;
             sent := sent w_answer_yes; clock := clock w_answer_yes;
             stdin := tail (stdin w_answer_yes);
             trace := trace w_answer_yes ++ [EvLog ("Proceed?" +:+ " [y/N]: ")] |}) ∧
       (b = true ↔ ∃ ans rest, stdin w_answer_yes = ans :: rest ∧
                               lower (PyRuntime := ascii_runtime)
                                 (strip (PyRuntime := ascii_runtime) ans)
                               ∈ ["y"; "yes"]).
Proof.
  exact (confirm_accepts_only_yes (RT := ascii_runtime) "Proceed?" w_answer_yes).
Defined.

Lemma dry_run_sends_nothing_witness :
  main (RT := ascii_runtime) cli_dry "https://cc" 122
    [img_a; img_golden; img_no_id] w_down =
    (Ret None,
     with_events w_down
       (listing_events (RT := ascii_runtime) cli_dry [row_a; row_golden_ex] ++
        [if arg_json cli_dry then EvJson (PrDryRun [row_a; row_golden_ex])
         else EvLog (nl +:+ "DRY RUN: no deletions performed.")])) ∧
  sent (main (RT := ascii_runtime) cli_dry "https://cc" 122
          [img_a; img_golden; img_no_id] w_down).2 = sent w_down.
Proof.
  eapply (dry_run_sends_nothing (RT := ascii_runtime) cli_dry "https://cc" 122
            [img_a; img_golden; img_no_id] w_down); reflexivity.
Defined.

Lemma no_match_sends_nothing_witness :
  main (RT := ascii_runtime) cli_ask "https://cc" 122 [img_no_id] w_down =
    (Ret None,
     with_events w_down
       (listing_events (RT := ascii_runtime) cli_ask []
        ++ [EvLog "Nothing to delete (no matches)."])).
Proof.
  eapply (no_match_sends_nothing (RT := ascii_runtime) cli_ask "https://cc" 122
            [img_no_id] w_down); reflexivity.
Defined.

Lemma declined_run_sends_nothing_witness :
  let run := main (RT := ascii_runtime) cli_ask "https://cc" 122 [img_a] w_down in
  run.1 = Ret None ∧ sent run.2 = sent w_down ∧
  trace run.2 =
    trace w_down ++ listing_events (RT := ascii_runtime) cli_ask [row_a]
    ++ [EvLog (confirm_prompt [row_a]); EvLog "Aborted."].
Proof.
  eapply (declined_run_sends_nothing (RT := ascii_runtime) cli_ask "https://cc" 122
            [img_a] w_down); try reflexivity.
  - discriminate.
  - intros ans rest H. discriminate H.
Defined.

Lemma report_respects_ids_witness :
  Forall (λ r, truthy (imageUuid r) = true) [row_a] ∧
  Forall (λ f : failure,
            f.2 = "missing imageUuid" ↔ truthy (imageUuid f.1) = false)
    [(img_row img_no_id, "missing imageUuid")].
Proof.
  apply (report_respects_ids (RT := ascii_runtime) cli_all "https://cc" 122
           [row_a; img_row img_no_id] w_no_content
           [row_a] [(img_row img_no_id, "missing imageUuid")]
           (deletions (RT := ascii_runtime) cli_all "https://cc" 122
              [row_a; img_row img_no_id] [] [] w_no_content).2).
  reflexivity.
Defined.

Lemma report_keeps_table_order_witness :
  [row_a] `sublist_of` [row_a; img_row img_no_id] ∧
  [(img_row img_no_id, "missing imageUuid")].*1
    `sublist_of` [row_a; img_row img_no_id].
Proof.
  apply (report_keeps_table_order (RT := ascii_runtime) cli_all "https://cc" 122
           [row_a; img_row img_no_id] w_no_content
           [row_a] [(img_row img_no_id, "missing imageUuid")]
           (deletions (RT := ascii_runtime) cli_all "https://cc" 122
              [row_a; img_row img_no_id] [] [] w_no_content).2).
  reflexivity.
Defined.

Lemma base_has_no_trailing_slash_witness :
  (∃ n, "https://cc//" = "https://cc" +:+ slashes n) ∧
  (∀ t, "https://cc" ≠ t +:+ "/").
Proof.
  apply (base_has_no_trailing_slash "https://cc//" None None (Some "tok") true
           (Fails ConnectionError)
           {| cc_base := "https://cc"; cc_verify := true; cc_token := JStr "tok" |}).
  reflexivity.
Defined.

Lemma constructed_client_has_a_token_witness :
  truthy (JStr "tok") = true.
Proof.
  apply (constructed_client_has_a_token "https://cc//" None None (Some "tok") true
           (Fails ConnectionError)
           {| cc_base := "https://cc"; cc_verify := true; cc_token := JStr "tok" |}).
  reflexivity.
Defined.

Lemma empty_inventory_crashes_the_selection_witness :
  list_images (Responds inventory_reply) = Started (JObj empty_inventory) ∧
  select_inventory (RT := ascii_runtime) match_all (JObj empty_inventory)
    = Crashed AttributeError.
Proof.
  apply (empty_inventory_crashes_the_selection (RT := ascii_runtime)
           match_all inventory_reply empty_inventory (JArr [])); reflexivity.
Defined.

Lemma select_inventory_of_array_witness :
  select_inventory (RT := ascii_runtime) match_all (JArr [JObj img_a; JInt 7])
    = Crashed AttributeError.
Proof.
  apply (proj2 (select_inventory_of_array (RT := ascii_runtime) match_all
                  [JObj img_a; JInt 7])).
  apply Exists_cons_tl, Exists_cons_hd. intros o H. discriminate H.
Defined.
